(** * Filler-aware interruption handler: a shallow embedding

    Source files:
    - [livekit_agents_extensions/filler_interrupt_handler.py]
      ([normalize_text], [tokenize], class [FillerInterruptHandler]);
    - [examples/other/transcription/multi-user-transcriber.py]
      ([Transcriber.stop_speaking], [MultiUserTranscriber._handle_interruption]
      and the callback wiring of [_start_session]).

    Modelling conventions.
    - A Python [str] is a Rocq [string]; its characters stand for the code
      points U+0000..U+00FF, with the Unicode properties Python uses on that
      range ([str.isspace], [str.lower], the regular expression class [\w]).
    - Confidence values are exact rationals [Q]; the rounding of IEEE doubles
      is outside the model.
    - Word sets are [gset string], dictionaries are [gmap string _].
    - Logging is not modelled. *)

From Stdlib Require Import Ascii QArith Qabs Qround.
From stdpp Require Import base gmap strings list.

Local Open Scope string_scope.
Local Open Scope list_scope.

(** ** Characters and strings as Python sees them *)

Module Py.

Definition code (c : ascii) : N := N_of_ascii c.

Definition between (lo hi : N) (c : ascii) : bool :=
  ((lo <=? code c) && (code c <=? hi))%N.

(** [str.isspace] on U+0000..U+00FF: TAB..CR, FS..US, SPACE, NEL, NBSP. *)
Definition isspace (c : ascii) : bool :=
  between 9 13 c || between 28 32 c
  || (code c =? 133)%N || (code c =? 160)%N.

(** The class [\w] of a [str] pattern: alphanumeric code points and [_].
    Beyond ASCII the alphanumerics below U+0100 are
    ª ² ³ µ ¹ º ¼ ½ ¾, À..Ö, Ø..ö and ø..ÿ. *)
Definition isword (c : ascii) : bool :=
  between 48 57 c || between 65 90 c || between 97 122 c
  || (code c =? 95)%N
  || (code c =? 170)%N || between 178 179 c || (code c =? 181)%N
  || between 185 186 c || between 188 190 c
  || between 192 214 c || between 216 246 c || between 248 255 c.

(** [str.lower] on one code point: A..Z, À..Ö and Ø..Þ move up by 32. *)
Definition lower_char (c : ascii) : ascii :=
  if between 65 90 c || between 192 214 c || between 216 222 c
  then ascii_of_N (code c + 32)
  else c.

Fixpoint lower (s : string) : string :=
  match s with
  | EmptyString => EmptyString
  | String c s' => String (lower_char c) (lower s')
  end.

Fixpoint lstrip (s : string) : string :=
  match s with
  | EmptyString => EmptyString
  | String c s' => if isspace c then lstrip s' else s
  end.

(** [rstrip] keeps a character when it is not a space or when something
    survives to its right. *)
Fixpoint rstrip (s : string) : string :=
  match s with
  | EmptyString => EmptyString
  | String c s' =>
      match rstrip s' with
      | EmptyString => if isspace c then EmptyString else String c EmptyString
      | r => String c r
      end
  end.

Definition strip (s : string) : string := rstrip (lstrip s).

(** [str.split()] with no separator: maximal runs of non-space characters.
    [cur] is the run being read, in reverse. *)
Fixpoint split_from (cur : list ascii) (s : string) : list string :=
  match s with
  | EmptyString =>
      match cur with
      | [] => []
      | _ => [String.string_of_list_ascii (rev cur)]
      end
  | String c s' =>
      if isspace c then
        match cur with
        | [] => split_from [] s'
        | _ => String.string_of_list_ascii (rev cur) :: split_from [] s'
        end
      else split_from (c :: cur) s'
  end.

Definition split (s : string) : list string := split_from [] s.

(** Truthiness of a [str]: non-empty. *)
Definition truthy (s : string) : bool :=
  match s with EmptyString => false | _ => true end.

End Py.

(** ** The tokenizer (lines 22-29) *)

(** [_TOKEN_RE = re.compile(r"[^\w']+", re.UNICODE)]: a character belongs to
    a match when it is neither a word character nor an apostrophe. *)
Definition _TOKEN_RE (c : ascii) : bool :=
  negb (Py.isword c || (Py.code c =? 39)%N).

(** [_TOKEN_RE.sub(" ", s)]: every maximal run of matching characters
    becomes one space. [in_run] tells that the previous character matched. *)
Fixpoint token_re_sub (in_run : bool) (s : string) : string :=
  match s with
  | EmptyString => EmptyString
  | String c s' =>
      if _TOKEN_RE c then
        if in_run then token_re_sub true s'
        else String " "%char (token_re_sub true s')
      else String c (token_re_sub false s')
  end.

(** [return _TOKEN_RE.sub(" ", text or "").strip().lower()]; an absent text
    is the empty string. *)
Definition normalize_text (text : string) : string :=
  Py.lower (Py.strip (token_re_sub false text)).

(** [return [t for t in normalize_text(text).split() if t]] *)
Definition tokenize (text : string) : list string :=
  filter (λ t, Py.truthy t = true) (Py.split (normalize_text text)).

(** A character of a token: lower-case, and neither a space nor a
    separator. *)
Definition token_char (c : ascii) : Prop :=
  Py.isspace c = false ∧ _TOKEN_RE c = false ∧ Py.lower_char c = c.

(** ** Python values, dictionaries and exceptions *)

(** The values that reach a callback's metadata dictionary. *)
Inductive Value :=
  | VStr (s : string)
  | VFloat (q : Q)
  | VList (l : list string).

(** A dictionary display [{k1: v1, ..., **rest}]: the keys of [rest] come
    last, so they win over the literal items. *)
Definition dict_display (items : list (string * Value))
    (rest : gmap string Value) : gmap string Value :=
  rest ∪ list_to_map items.

(** An exception that is raised: an instance of [Exception], which
    [except Exception] catches, told from the others by its message or its
    class name; or an exception that derives from [BaseException] only
    ([asyncio.CancelledError], [KeyboardInterrupt], [SystemExit]), which
    [except Exception] lets through. *)
Inductive exn :=
  | Exception (msg : string)
  | BaseException (name : string).

Inductive outcome (A : Type) :=
  | Returned (a : A)
  | Raised (e : exn).
Arguments Returned {A} a.
Arguments Raised {A} e.

(** The [Iterable[str]] arguments. A sized collection (list, tuple, set) is
    false in a boolean context when it is empty; an iterator or a generator
    has neither [__len__] nor [__bool__] and is always true. *)
Inductive Iterable :=
  | Sized (items : list string)
  | Iterator (items : list string).

Definition iter_items (it : Iterable) : list string :=
  match it with Sized l | Iterator l => l end.

Definition iter_truthy (it : Iterable) : bool :=
  match it with
  | Sized [] => false
  | Sized (_ :: _) => true
  | Iterator _ => true
  end.

(** An element of the [words] list: a dict, with or without a
    ["confidence"] entry, or an object that is not a dict. *)
Inductive Word :=
  | WDict (confidence : option Q)
  | WOther.

Definition Qltb (a b : Q) : bool :=
  (Qnum a * Zpos (Qden b) <? Qnum b * Zpos (Qden a))%Z.

(** ** The handler's data (lines 16-20 and 36-56) *)

Definition DEFAULT_IGNORED_WORDS : gset string :=
  {[ "uh"; "umm"; "hmm"; "haan"; "uhh"; "uhm"; "erm"; "ah"; "mm"; "mmh";
     "mhmm" ]}.

Definition DEFAULT_FORCE_STOP_WORDS : gset string :=
  {[ "stop"; "wait"; "hold"; "pause"; "no"; "halt"; "end"; "shut up";
     "be quiet" ]}.

(** The attributes of a handler object other than its callback table. *)
Record HandlerFields := {
  ignored_words : gset string;
  force_stop_words : gset string;
  min_confidence_to_consider : Q;
  ignore_if_confidence_below : Q;
  agent_speaking : bool;
}.

Inductive Category := valid_interruption | ignored_filler | speech_registered.

Global Instance Category_eq_dec : EqDecision Category.
Proof. solve_decision. Defined.

(** [set(w.lower() for w in items)] *)
Definition lower_set (items : list string) : gset string :=
  list_to_set (Py.lower <$> items).

(** [set(w.lower() for w in (arg or dflt))] *)
Definition lower_set_or (arg : option Iterable) (dflt : gset string)
    : gset string :=
  match arg with
  | Some it =>
      if iter_truthy it then lower_set (iter_items it)
      else lower_set (elements dflt)
  | None => lower_set (elements dflt)
  end.

(** The handler's words are stored in lower case. *)
Definition lowercase_words (h : HandlerFields) : Prop :=
  ∀ w, w ∈ ignored_words h ∨ w ∈ force_stop_words h → Py.lower w = w.

Section Handler.

(** [W] is everything else the registered callbacks can reach. *)
Context {W : Type}.

(** The store a call runs in: the handler object and the rest. *)
Record Store := {
  self : HandlerFields;
  env : W;
}.

(** Computations that read and write the store and may raise. *)
Definition M (A : Type) : Type := Store → Store * outcome A.

#[export] Instance M_ret : MRet M := λ A a st, (st, Returned a).

#[export] Instance M_bind : MBind M := λ A B k m st,
  match m st with
  | (st', Returned a) => k a st'
  | (st', Raised e) => (st', Raised e)
  end.

Definition get_self : M HandlerFields := λ st, (st, Returned (self st)).

Definition put_self (h : HandlerFields) : M unit :=
  λ st, ({| self := h; env := env st |}, Returned tt).

Definition raise {A} (e : exn) : M A := λ st, (st, Raised e).

(** [for x in l: body(x)] *)
Fixpoint for_each {A} (l : list A) (body : A → M unit) : M unit :=
  match l with
  | [] => mret tt
  | x :: l' => _ ← body x; for_each l' body
  end.

(** A callback [cb(text, metadata)]; what it returns is dropped. *)
Definition Callback : Type := string → gmap string Value → M unit.

Record FillerInterruptHandler := {
  fields : HandlerFields;
  _callbacks : Category → list Callback;
}.

(** Lines 36-56. [float(x)] is the identity on a number, and no statement of
    the constructor raises on arguments of these types: the result is always
    [Returned]. *)
Definition __init__ (ignored_words force_stop_words : option Iterable)
    (min_confidence_to_consider ignore_if_confidence_below : Q)
    : outcome FillerInterruptHandler :=
  Returned {|
    fields := {|
      ignored_words := lower_set_or ignored_words DEFAULT_IGNORED_WORDS;
      force_stop_words := lower_set_or force_stop_words DEFAULT_FORCE_STOP_WORDS;
      min_confidence_to_consider := min_confidence_to_consider;
      ignore_if_confidence_below := ignore_if_confidence_below;
      agent_speaking := false;
    |};
    _callbacks := λ _, [];
  |}.

(** Lines 59-69: [self._callbacks[k].append(cb)]. *)
Definition register (k : Category) (cb : Callback)
    (h : FillerInterruptHandler) : FillerInterruptHandler :=
  {| fields := fields h;
     _callbacks := λ k',
       if decide (k' = k) then _callbacks h k ++ [cb] else _callbacks h k' |}.

Definition on_valid_interruption := register valid_interruption.
Definition on_ignored_filler := register ignored_filler.
Definition on_speech_registered := register speech_registered.

(** Lines 72-80: [async with self.lock: self.ignored_words = set(...)]. *)
Definition update_ignored_words (new_list : Iterable) : M unit :=
  h ← get_self;
  put_self {|
    ignored_words := lower_set (iter_items new_list);
    force_stop_words := force_stop_words h;
    min_confidence_to_consider := min_confidence_to_consider h;
    ignore_if_confidence_below := ignore_if_confidence_below h;
    agent_speaking := agent_speaking h |}.

Definition update_force_stop_words (new_list : Iterable) : M unit :=
  h ← get_self;
  put_self {|
    ignored_words := ignored_words h;
    force_stop_words := lower_set (iter_items new_list);
    min_confidence_to_consider := min_confidence_to_consider h;
    ignore_if_confidence_below := ignore_if_confidence_below h;
    agent_speaking := agent_speaking h |}.

(** Lines 83-87: [async with self.lock: self.agent_speaking = speaking]. *)
Definition set_agent_speaking (speaking : bool) : M unit :=
  h ← get_self;
  put_self {|
    ignored_words := ignored_words h;
    force_stop_words := force_stop_words h;
    min_confidence_to_consider := min_confidence_to_consider h;
    ignore_if_confidence_below := ignore_if_confidence_below h;
    agent_speaking := speaking |}.

(** Lines 90-94. *)
Definition _on_tts_start : M unit := set_agent_speaking true.
Definition _on_tts_end : M unit := set_agent_speaking false.

(** Line 110:
    [[w.get("confidence", 1.0) for w in words if isinstance(w, dict)]]. *)
Definition word_confidences (words : list Word) : list Q :=
  omap (λ w, match w with
             | WDict c => Some (default 1%Q c)
             | WOther => None
             end) words.

(** [sum(confidences)]: a fold from the left, starting at 0. *)
Definition py_sum (confidences : list Q) : Q := fold_left Qplus confidences 0%Q.

(** Lines 107-112, the local [avg_conf], in exact arithmetic;
    [avg_confidence_with] below takes the arithmetic of the interpreter as a
    parameter. *)
Definition avg_confidence (confidence : option Q) (words : option (list Word))
    : Q :=
  let avg_conf := match confidence with Some c => c | None => 1%Q end in
  match words with
  | Some ((_ :: _) as words) =>
      let confidences := word_confidences words in
      match confidences with
      | _ :: _ =>
          (py_sum confidences / inject_Z (Z.of_nat (length confidences)))%Q
      | [] => avg_conf
      end
  | _ => avg_conf
  end.

(** Lines 117-154, what [handle_transcript] does once it has left the lock
    with its snapshot of [self.agent_speaking]. *)
Definition filler_policy (cbs : Category → list Callback)
    (text : string) (tokens : list string) (avg_conf : Q)
    (metadata : gmap string Value) (agent_speaking : bool) : M unit :=
  if agent_speaking then
    h ← get_self;
    if Qltb avg_conf (ignore_if_confidence_below h) then
      for_each (cbs ignored_filler) (λ cb,
        cb text (dict_display [("reason", VStr "low_confidence");
                               ("avg_conf", VFloat avg_conf)] metadata))
    else
      h ← get_self;
      let has_force_stop :=
        existsb (λ t, bool_decide (t ∈ force_stop_words h)) tokens in
      if has_force_stop then
        for_each (cbs valid_interruption) (λ cb,
          cb text (dict_display [("reason", VStr "force_stop_word");
                                 ("avg_conf", VFloat avg_conf)] metadata))
      else
        h ← get_self;
        let non_ignored_tokens := filter (λ t, t ∉ ignored_words h) tokens in
        match non_ignored_tokens with
        | [] =>
            for_each (cbs ignored_filler) (λ cb,
              cb text (dict_display [("reason", VStr "filler_only");
                                     ("avg_conf", VFloat avg_conf)] metadata))
        | _ :: _ =>
            for_each (cbs valid_interruption) (λ cb,
              cb text (dict_display [("reason", VStr "mixed_tokens");
                                     ("non_ignored", VList non_ignored_tokens);
                                     ("avg_conf", VFloat avg_conf)] metadata))
        end
  else
    for_each (cbs speech_registered) (λ cb,
      cb text (dict_display [("reason", VStr "agent_quiet");
                             ("avg_conf", VFloat avg_conf)] metadata)).

(** Lines 96-154. [cbs] is [self._callbacks]; an absent [metadata] is the
    empty dictionary. Lines 114-115 read the flag under the lock. *)
Definition handle_transcript (cbs : Category → list Callback)
    (text : string) (confidence : option Q) (words : option (list Word))
    (metadata : option (gmap string Value)) : M unit :=
  let metadata := default ∅ metadata in
  let text := Py.strip text in
  if negb (Py.truthy text) then mret tt else
  let tokens := tokenize text in
  let avg_conf := avg_confidence confidence words in
  h ← get_self;
  let agent_speaking := agent_speaking h in
  filler_policy cbs text tokens avg_conf metadata agent_speaking.

(** Lines 107-112 with the arithmetic of the interpreter. The confidences
    are doubles, which are rationals; [mean confidences] stands for
    [sum(confidences) / len(confidences)] as it is computed on them, with
    whatever rounding the additions and the division make. *)
Definition avg_confidence_with (mean : list Q → Q)
    (confidence : option Q) (words : option (list Word)) : Q :=
  let avg_conf := match confidence with Some c => c | None => 1%Q end in
  match words with
  | Some ((_ :: _) as words) =>
      let confidences := word_confidences words in
      match confidences with
      | _ :: _ => mean confidences
      | [] => avg_conf
      end
  | _ => avg_conf
  end.

(** The mean without rounding, the one [avg_confidence] computes. *)
Definition exact_mean (confidences : list Q) : Q :=
  (py_sum confidences / inject_Z (Z.of_nat (length confidences)))%Q.

(** Lines 96-154 with the arithmetic of the interpreter: line 122 compares
    the number that lines 108-112 computed. *)
Definition handle_transcript_with (mean : list Q → Q)
    (cbs : Category → list Callback)
    (text : string) (confidence : option Q) (words : option (list Word))
    (metadata : option (gmap string Value)) : M unit :=
  let metadata := default ∅ metadata in
  let text := Py.strip text in
  if negb (Py.truthy text) then mret tt else
  let tokens := tokenize text in
  let avg_conf := avg_confidence_with mean confidence words in
  h ← get_self;
  let agent_speaking := agent_speaking h in
  filler_policy cbs text tokens avg_conf metadata agent_speaking.

(** What a taken branch of [handle_transcript] does: every callback of one
    category is called, in registration order, with the trimmed text and a
    dictionary. *)
Definition dispatch (cbs : Category → list Callback) (k : Category)
    (text : string) (d : gmap string Value) : M unit :=
  for_each (cbs k) (λ cb, cb text d).

(** Lines 128-149 read as a function: the category and the dictionary the
    tokens select once the confidence gate is passed. *)
Definition token_reaction (h : HandlerFields) (tokens : list string)
    (avg_conf : Q) (metadata : gmap string Value)
    : Category * gmap string Value :=
  if existsb (λ t, bool_decide (t ∈ force_stop_words h)) tokens then
    (valid_interruption,
     dict_display [("reason", VStr "force_stop_word");
                   ("avg_conf", VFloat avg_conf)] metadata)
  else
    match filter (λ t, t ∉ ignored_words h) tokens with
    | [] =>
        (ignored_filler,
         dict_display [("reason", VStr "filler_only");
                       ("avg_conf", VFloat avg_conf)] metadata)
    | non_ignored_tokens =>
        (valid_interruption,
         dict_display [("reason", VStr "mixed_tokens");
                       ("non_ignored", VList non_ignored_tokens);
                       ("avg_conf", VFloat avg_conf)] metadata)
    end.

(** Lines 100-154 read as a function of the handler's attributes: the
    category and dictionary dispatched, or nothing for an empty text. *)
Definition reaction (h : HandlerFields) (text : string)
    (confidence : option Q) (words : option (list Word))
    (metadata : option (gmap string Value))
    : option (Category * gmap string Value) :=
  let metadata := default ∅ metadata in
  let text := Py.strip text in
  let avg_conf := avg_confidence confidence words in
  if negb (Py.truthy text) then None
  else if agent_speaking h then
    if Qltb avg_conf (ignore_if_confidence_below h) then
      Some (ignored_filler,
            dict_display [("reason", VStr "low_confidence");
                          ("avg_conf", VFloat avg_conf)] metadata)
    else Some (token_reaction h (tokenize text) avg_conf metadata)
  else
    Some (speech_registered,
          dict_display [("reason", VStr "agent_quiet");
                        ("avg_conf", VFloat avg_conf)] metadata).

End Handler.

Arguments Store : clear implicits.
Arguments M : clear implicits.
Arguments Callback : clear implicits.
Arguments FillerInterruptHandler : clear implicits.


(** ** The session wiring ([multi-user-transcriber.py]) *)

(** Calling an [async def] function builds a coroutine object and runs
    nothing of its body; the body runs when the object is awaited. *)
Definition call_async {W A} (body : M W A) : M W (M W A) := mret body.

Definition await {W A} (coroutine : M W A) : M W A := coroutine.

Module Session.

(** The attributes of a [Transcriber] the interruption path touches. *)
Record Transcriber := {
  participant_identity : string;
  _is_speaking : bool;
}.

(** A [MultiUserTranscriber]: [self._agents], the agents by identity. *)
Record MultiUserTranscriber := {
  _agents : gmap string Transcriber;
}.

(** Lines 50-53, on the agent registered under [identity]:
    [self._is_speaking = False]. *)
Definition stop_speaking (identity : string) : M MultiUserTranscriber unit :=
  λ st,
    ({| self := self st;
        env := {| _agents :=
                    alter (λ agent,
                             {| participant_identity :=
                                  participant_identity agent;
                                _is_speaking := false |})
                          identity (_agents (env st)) |} |},
     Returned tt).

(** Lines 243-250. *)
Definition _handle_interruption (participant_identity text : string)
    (meta : gmap string Value) : M MultiUserTranscriber unit :=
  λ st,
    match _agents (env st) !! participant_identity with
    | Some agent => await (stop_speaking participant_identity) st
    | None => (st, Returned tt)
    end.

(** Line 203:
    [lambda t, m: self._handle_interruption(participant.identity, t, m)].
    The lambda calls the [async def] method and returns the coroutine
    object, which [handle_transcript] drops. *)
Definition interruption_callback (identity : string)
    : Callback MultiUserTranscriber :=
  λ t m, _ ← call_async (_handle_interruption identity t m); mret tt.

(** Lines 204-205: the two other callbacks only log. *)
Definition log_callback : Callback MultiUserTranscriber := λ t m, mret tt.

(** Lines 196-205 of [_start_session]: the handler of one participant. *)
Definition session_handler (identity : string)
    : outcome (FillerInterruptHandler MultiUserTranscriber) :=
  match
    __init__
      (Some (Sized ["uh"; "umm"; "hmm"; "haan"; "uhh"; "uhm"]))
      (Some (Sized ["stop"; "wait"; "pause"; "end"; "terminate"; "shut up";
                    "be quiet"; "halt"]))
      0.5 0.35
  with
  | Returned handler =>
      Returned
        (on_speech_registered log_callback
          (on_ignored_filler log_callback
            (on_valid_interruption (interruption_callback identity) handler)))
  | Raised e => Raised e
  end.

End Session.

(** ** Coroutines on the event loop

    An asyncio task runs without interruption up to its next [await]; the
    loop then resumes any task that is ready. The only awaits of the handler
    are the entry and the exit of [async with self.lock]; no lock body
    awaits, so the lock is free at every suspension point and an entry never
    has to wait. The model is more liberal than the loop: it may switch tasks
    when a task starts, at every lock entry and at every lock exit. *)

Section Coroutines.

Context {W : Type}.

#[warnings="-register-all"] Inductive Coro :=
  | Finished (r : outcome unit)
  | Suspended (resume : Store W → Store W * Coro).

(** The rest of a coroutine body that does not await any more. *)
Definition to_the_end (m : M W unit) : Store W → Store W * Coro :=
  λ st, let (st', r) := m st in (st', Finished r).

(** [handle_transcript] from the lock exit on: lines 117-154. *)
Definition after_lock (cbs : Category → list (Callback W))
    (text : string) (confidence : option Q) (words : option (list Word))
    (metadata : option (gmap string Value)) (agent_speaking : bool) : Coro :=
  Suspended
    (to_the_end
       (filler_policy cbs (Py.strip text) (tokenize (Py.strip text))
          (avg_confidence confidence words) (default ∅ metadata)
          agent_speaking)).

(** [handle_transcript] from the lock entry on: line 115 reads the flag. *)
Definition in_lock (cbs : Category → list (Callback W))
    (text : string) (confidence : option Q) (words : option (list Word))
    (metadata : option (gmap string Value)) : Coro :=
  Suspended (λ st,
    (st, after_lock cbs text confidence words metadata
           (agent_speaking (self st)))).

(** [handle_transcript] as a task: lines 100-112 touch no attribute of the
    handler and end the task on an empty text. *)
Definition handle_transcript_task (cbs : Category → list (Callback W))
    (text : string) (confidence : option Q) (words : option (list Word))
    (metadata : option (gmap string Value)) : Coro :=
  Suspended (λ st,
    if negb (Py.truthy (Py.strip text)) then (st, Finished (Returned tt))
    else (st, in_lock cbs text confidence words metadata)).

(** [update_ignored_words], [update_force_stop_words] and
    [set_agent_speaking] as tasks: the whole body is under the lock. *)
Definition leaving_lock (r : outcome unit) : Coro :=
  Suspended (λ st, (st, Finished r)).

Definition entering_lock (body : M W unit) : Coro :=
  Suspended (λ st, let (st', r) := body st in (st', leaving_lock r)).

Definition locked_task (body : M W unit) : Coro :=
  Suspended (λ st, (st, entering_lock body)).

(** The loop resumes task [i] of the pool. *)
Definition resume_task (i : nat) (cfg : Store W * list Coro)
    : Store W * list Coro :=
  match cfg.2 !! i with
  | Some (Suspended resume) =>
      let (st', c) := resume cfg.1 in (st', <[i := c]> cfg.2)
  | _ => cfg
  end.

Definition run_schedule (schedule : list nat) (cfg : Store W * list Coro)
    : Store W * list Coro :=
  fold_left (λ cfg i, resume_task i cfg) schedule cfg.

End Coroutines.

Arguments Coro : clear implicits.

(** One [handle_transcript] task and one update task on the loop: what the
    two calls amount to when run one after the other, and the
    configurations the loop can be in. *)

Section Interleaving.

Context {W : Type}.
Context (cbs : Category → list (Callback W)) (text : string)
  (confidence : option Q) (words : option (list Word))
  (metadata : option (gmap string Value)).
Context (update : M W unit).
Context (st : Store W).

(** The transcript is handled in the store [st], with the words it holds,
    and the update comes after. *)
Definition transcript_then_update (st' : Store W) (r1 r2 : outcome unit)
    : Prop :=
  ∃ stm, handle_transcript cbs text confidence words metadata st = (stm, r1)
         ∧ update stm = (st', r2).

(** The update is applied to [st] first, and the transcript is handled in
    the updated store. *)
Definition update_then_transcript (st' : Store W) (r1 r2 : outcome unit)
    : Prop :=
  ∃ stm, update st = (stm, r2)
         ∧ handle_transcript cbs text confidence words metadata stm
           = (st', r1).

(** The transcript task has not dispatched yet; the flag it may have read
    is the one of [st]. *)
Definition transcript_pending (c : Coro W) : Prop :=
  c = handle_transcript_task cbs text confidence words metadata
  ∨ (Py.strip text ≠ ""
     ∧ (c = in_lock cbs text confidence words metadata
        ∨ c = after_lock cbs text confidence words metadata
                (agent_speaking (self st)))).

Definition update_pending (c : Coro W) : Prop :=
  c = locked_task update ∨ c = entering_lock update.

Definition update_applied (c : Coro W) (r2 : outcome unit) : Prop :=
  c = leaving_lock r2 ∨ c = Finished r2.

Inductive reachable : Store W * list (Coro W) → Prop :=
  | both_pending a u :
      transcript_pending a → update_pending u →
      reachable (st, [a; u])
  | update_done a u s r2 :
      transcript_pending a → update_applied u r2 → update st = (s, r2) →
      reachable (s, [a; u])
  | transcript_done u s r1 :
      update_pending u →
      handle_transcript cbs text confidence words metadata st = (s, r1) →
      reachable (s, [Finished r1; u])
  | both_done u s r1 r2 :
      update_applied u r2 →
      transcript_then_update s r1 r2 ∨ update_then_transcript s r1 r2 →
      reachable (s, [Finished r1; u]).

End Interleaving.

(** ** Observing a run: callbacks that record their calls *)

Definition Call : Type := Category * string * gmap string Value.

Definition recorder (k : Category) : Callback (list Call) :=
  λ text metadata st,
    ({| self := self st; env := env st ++ [(k, text, metadata)] |},
     Returned tt).

Definition failing (msg : string) : Callback (list Call) :=
  λ text metadata, raise (Exception msg).

(** A handler as [__init__] leaves it, with one recorder per category. *)
Definition recording (h : FillerInterruptHandler (list Call))
    : FillerInterruptHandler (list Call) :=
  on_speech_registered (recorder speech_registered)
    (on_ignored_filler (recorder ignored_filler)
      (on_valid_interruption (recorder valid_interruption) h)).

(** The store in which a freshly built handler starts, the agent speaking
    ([set_agent_speaking(True)]) or not. *)
Definition started {W} (h : FillerInterruptHandler W) (speaking : bool)
    (w : W) : Store W :=
  fst (set_agent_speaking speaking {| self := fields h; env := w |}).

(** ** More of Python's [str] *)

Module PyStr.

(** [s.startswith(prefix)] *)
Fixpoint startswith (s prefix : string) : bool :=
  match prefix, s with
  | EmptyString, _ => true
  | String _ _, EmptyString => false
  | String a prefix', String b s' =>
      if Ascii.eqb a b then startswith s' prefix' else false
  end.

(** [needle in hay]: [needle] occurs in [hay] as a substring. *)
Fixpoint contains (needle hay : string) : bool :=
  startswith hay needle
  || match hay with
     | EmptyString => false
     | String _ hay' => contains needle hay'
     end.

(** [s[:n]] *)
Fixpoint take (n : nat) (s : string) : string :=
  match n, s with
  | S n', String c s' => String c (take n' s')
  | _, _ => EmptyString
  end.

End PyStr.

(** ** Doubles

    A finite double is a rational. [Float64.round] is the rounding of IEEE
    754 to the nearest binary64, ties to even, for results below [2^1024]
    in magnitude; the sum and the quotient of two doubles are the exact ones,
    rounded. *)

Module Float64.

Definition pow2 (k : Z) : Q :=
  if (0 <=? k)%Z then inject_Z (2 ^ k) else (1 / inject_Z (2 ^ (- k)))%Q.

(** The integer nearest to [q], the even one of two that are as near. *)
Definition nearest_even (q : Q) : Z :=
  let f := Qfloor q in
  match (q - inject_Z f ?= 1 # 2)%Q with
  | Lt => f
  | Gt => (f + 1)%Z
  | Eq => if Z.even f then f else (f + 1)%Z
  end.

(** [floor (log2 a)] for a positive [a]. *)
Definition binade (a : Q) : Z :=
  let e := (Z.log2 (Qnum a) - Z.log2 (Zpos (Qden a)))%Z in
  if Qle_bool (pow2 e) a then e else (e - 1)%Z.

Definition round (q : Q) : Q :=
  if Qeq_bool q 0 then 0%Q
  else
    let a := Qabs q in
    let k := Z.max (binade a - 52) (-1074) in
    let m := inject_Z (nearest_even (a / pow2 k)) in
    Qred (if Qle_bool 0 q then m * pow2 k else - (m * pow2 k))%Q.

Definition add (a b : Q) : Q := round (a + b).

Definition div (a b : Q) : Q := round (a / b).

(** [sum(confidences) / len(confidences)] on doubles, the additions made
    from the left, each one rounded, as CPython makes them before version
    3.12 (later versions compensate the rounding of the additions). *)
Definition mean (confidences : list Q) : Q :=
  div (fold_left add confidences 0%Q)
      (inject_Z (Z.of_nat (length confidences))).

End Float64.

(** ** Words as they come

    The elements of [words] are not typed: under ["confidence"] a dict may
    hold a number, or an object that cannot be added to a number ([None], a
    string, a list), on which [sum] raises [TypeError]. *)




(** ** Exceptions caught, and the rest of the store *)

(** The exceptions of the interpreter that the code below meets: an
    attribute or an index asked of [None], a number added to an object that
    is not one. *)
Definition AttributeError : exn := Exception "AttributeError".
Definition TypeError : exn := Exception "TypeError".

(** [try: body except Exception as e: handler(e)]: an exception that is
    not an instance of [Exception] goes through. *)
Definition try_except {W A} (body : M W A) (handler : exn → M W A) : M W A :=
  λ st,
    match body st with
    | (st', Raised (Exception msg)) => handler (Exception msg) st'
    | (st', Raised (BaseException name)) => (st', Raised (BaseException name))
    | (st', Returned a) => (st', Returned a)
    end.


Definition get_env {W} : M W W := λ st, (st, Returned (env st)).

Definition put_env {W} (w : W) : M W unit :=
  λ st, ({| self := self st; env := w |}, Returned tt).

(** ** A user turn ([Transcriber], lines 40-125)

    The store holds the handler object the agent refers to ([self.handler],
    when there is one) and the agent itself. The attributes [tts],
    [_agent_session] and [handler] are not assigned by the methods below;
    they are given as the truth values the methods test. *)

Module Turn.

(** [StopResponse()], told from other exceptions by its class name. *)
Definition StopResponse : exn := Exception "StopResponse".

(** [self._is_speaking = b] *)
Definition set_is_speaking (b : bool) : M Session.Transcriber unit :=
  a ← get_env;
  put_env {| Session.participant_identity := Session.participant_identity a;
             Session._is_speaking := b |}.

(** Lines 50-53. *)
Definition stop_speaking : M Session.Transcriber unit := set_is_speaking false.

(** Lines 104-125: the two word lists are local to the method. *)
Definition _check_interruption (handler : bool) (text : string) : bool :=
  if negb handler then false
  else
    let text_lower := Py.lower text in
    let force_stop_words :=
      ["stop"; "wait"; "pause"; "end"; "terminate"; "shut up"; "be quiet";
       "halt"] in
    if existsb (λ stop, PyStr.contains stop text_lower) force_stop_words
    then true
    else
      let ignored_words := ["uh"; "umm"; "hmm"; "haan"; "uhh"; "uhm"] in
      let tokens :=
        filter (λ t, Py.truthy t = true) (Py.split text_lower) in
      let non_filler := filter (λ t, t ∉ ignored_words) tokens in
      match non_filler with
      | [] => false
      | _ :: _ => true
      end.

(** [if self.handler: await self.handler.set_agent_speaking(b)] *)
Definition tell_handler (handler : bool) (b : bool)
    : M Session.Transcriber unit :=
  if handler then set_agent_speaking b else mret tt.

(** Lines 55-102. [text_content] is [new_message.text_content], a string
    or [None] (line 57). [say] is [self._agent_session.say]: whatever the
    session and the rest of the program do until the reply has been spoken,
    or the exception that ends it, a cancellation among them. The other
    awaits do not suspend: the methods of the agent have no await of their
    own, and the handler's lock is free whenever a coroutine runs, so that
    [say] is the one place where the turn can be cancelled. *)
Definition on_user_turn_completed (tts _agent_session handler : bool)
    (say : string → M Session.Transcriber unit)
    (text_content : option string) : M Session.Transcriber unit :=
  let user_transcript := text_content in
  a ← get_env;
  _ ← (if Session._is_speaking a && handler then
         should_interrupt ←
           match user_transcript with
           | Some text => mret (_check_interruption handler text)
           | None => raise AttributeError
           end;
         if (should_interrupt : bool) then
           _ ← stop_speaking;
           raise StopResponse
         else mret tt
       else mret tt);
  response_text ←
    match user_transcript with
    | Some text => mret ("Got it. You said: " +:+ PyStr.take 200 text)
    | None => raise TypeError
    end;
  _ ← try_except
        (a ← get_env;
         if tts && _agent_session && negb (Session._is_speaking a) then
           _ ← set_is_speaking true;
           _ ← tell_handler handler true;
           _ ← say response_text;
           _ ← set_is_speaking false;
           tell_handler handler false
         else mret tt)
        (λ e,
           _ ← set_is_speaking false;
           tell_handler handler false);
  raise StopResponse.

End Turn.

(** ** The participants ([MultiUserTranscriber], lines 131-165 and 220-221)

    [asyncio.create_task] only schedules a coroutine. The tasks of
    [_start_session] that have not finished are kept by participant
    identity; the sessions handed to [_close_session] are listed. An
    [AgentSession] object is told from the others by a number. *)

Module Registry.

Record State := {
  _sessions : gmap string nat;
  agents : Session.MultiUserTranscriber;
  _tasks : list string;
  closing : list nat;
}.

Definition initial : State :=
  {| _sessions := ∅;
     agents := {| Session._agents := ∅ |};
     _tasks := [];
     closing := [] |}.

(** Lines 152-158. *)
Definition on_participant_connected (identity : string) (st : State)
    : State :=
  if decide (identity ∈ dom (_sessions st)) then st
  else
    {| _sessions := _sessions st;
       agents := agents st;
       _tasks := _tasks st ++ [identity];
       closing := closing st |}.

(** [self._tasks.discard(task)] *)
Fixpoint discard (identity : string) (tasks : list string) : list string :=
  match tasks with
  | [] => []
  | t :: tasks' =>
      if decide (t = identity) then tasks' else t :: discard identity tasks'
  end.

(** A task of [_start_session] finishes (lines 170-241 and the callback of
    line 158). [session] is the session of lines 173-216 when none of them
    raised: lines 219-221 then register the session and a fresh agent. When
    one of them raised, line 239 catches the exception and nothing is
    registered. *)
Definition _start_session (identity : string) (session : option nat)
    (st : State) : State :=
  if decide (identity ∈ _tasks st) then
    match session with
    | Some sess =>
        {| _sessions := <[identity := sess]> (_sessions st);
           agents :=
             {| Session._agents :=
                  <[identity :=
                      {| Session.participant_identity := identity;
                         Session._is_speaking := false |}]>
                    (Session._agents (agents st)) |};
           _tasks := discard identity (_tasks st);
           closing := closing st |}
    | None =>
        {| _sessions := _sessions st;
           agents := agents st;
           _tasks := discard identity (_tasks st);
           closing := closing st |}
    end
  else st.

(** Lines 160-165. *)
Definition on_participant_disconnected (identity : string) (st : State)
    : State :=
  let sess := _sessions st !! identity in
  {| _sessions := delete identity (_sessions st);
     agents :=
       {| Session._agents := delete identity (Session._agents (agents st)) |};
     _tasks := _tasks st;
     closing :=
       match sess with
       | Some s => closing st ++ [s]
       | None => closing st
       end |}.

(** What the room and the loop make happen. *)
Inductive Event :=
  | Connected (identity : string)
  | Disconnected (identity : string)
  | SetupFinished (identity : string) (session : option nat).

Definition step (st : State) (e : Event) : State :=
  match e with
  | Connected identity => on_participant_connected identity st
  | Disconnected identity => on_participant_disconnected identity st
  | SetupFinished identity session => _start_session identity session st
  end.

Definition run (events : list Event) (st : State) : State :=
  fold_left step events st.

(** Sessions and agents are registered under the same identities, each
    agent under its own. *)
Definition registered_together (st : State) : Prop :=
  dom (_sessions st) = dom (Session._agents (agents st))
  ∧ ∀ identity agent,
      Session._agents (agents st) !! identity = Some agent →
      Session.participant_identity agent = identity.

End Registry.

(** ** Basic facts *)

Lemma Qltb_lt (a b : Q) : Qltb a b = true ↔ (a < b)%Q.
Proof. unfold Qltb, Qlt. apply Z.ltb_lt. Qed.

Lemma Qltb_ge (a b : Q) : Qltb a b = false ↔ (b <= a)%Q.
Proof. unfold Qltb, Qle. apply Z.ltb_ge. Qed.

Lemma Qltb_eq (a b : Q) : (a == b)%Q → Qltb a b = false.
Proof. intros E. apply Qltb_ge. rewrite E. apply Qle_refl. Qed.

Lemma existsb_force_stop (fsw : gset string) (tokens : list string) :
  existsb (λ t, bool_decide (t ∈ fsw)) tokens = true
  ↔ ∃ t, t ∈ tokens ∧ t ∈ fsw.
Proof.
  rewrite existsb_exists. split.
  - intros (t & Hin & Hb). exists t. split.
    + by apply list_elem_of_In.
    + by apply bool_decide_eq_true in Hb.
  - intros (t & Hin & Hf). exists t. split.
    + by apply list_elem_of_In.
    + by apply bool_decide_eq_true.
Qed.

Lemma existsb_force_stop_false (fsw : gset string) (tokens : list string) :
  existsb (λ t, bool_decide (t ∈ fsw)) tokens = false
  ↔ ∀ t, t ∈ tokens → t ∉ fsw.
Proof.
  split.
  - intros Hf t Hin Hfs.
    assert (existsb (λ t, bool_decide (t ∈ fsw)) tokens = true) as Ht
      by (apply existsb_force_stop; eauto).
    congruence.
  - intros Hall. apply not_true_is_false. intros Ht.
    apply existsb_force_stop in Ht as (t & Hin & Hfs). by apply (Hall t).
Qed.

Lemma truthy_strip_nonempty (s : string) :
  s ≠ "" → negb (Py.truthy s) = false.
Proof. by destruct s. Qed.

(** ** Trimming does not change the tokens *)

Lemma isspace_matches (c : ascii) :
  Py.isspace c = true → _TOKEN_RE c = true.
Proof.
  destruct c as [b0 b1 b2 b3 b4 b5 b6 b7].
  destruct b0, b1, b2, b3, b4, b5, b6, b7; vm_compute; congruence.
Qed.

Lemma isspace_lower_char (c : ascii) :
  Py.isspace (Py.lower_char c) = Py.isspace c.
Proof.
  destruct c as [b0 b1 b2 b3 b4 b5 b6 b7].
  by destruct b0, b1, b2, b3, b4, b5, b6, b7.
Qed.

(** A space in front of a string, with no word being read, is skipped. *)
Lemma split_from_space cur (c : ascii) s :
  Py.isspace c = true →
  Py.split_from cur (String c s) =
    match cur with
    | [] => Py.split_from [] s
    | _ => String.string_of_list_ascii (rev cur) :: Py.split_from [] s
    end.
Proof. intros Hc. cbn. by rewrite Hc. Qed.

Lemma split_from_end_space cur (c : ascii) :
  Py.isspace c = true →
  Py.split_from cur (String c EmptyString) = Py.split_from cur EmptyString.
Proof. intros Hc. rewrite split_from_space by done. by destruct cur. Qed.

(** [split] does not see what [rstrip] and [lstrip] remove. *)
Lemma split_from_lower_rstrip cur s :
  Py.split_from cur (Py.lower (Py.rstrip s))
  = Py.split_from cur (Py.lower s).
Proof.
  revert cur. induction s as [|c s IH]; intros cur; [done|].
  cbn [Py.rstrip]. destruct (Py.rstrip s) as [|c0 r] eqn:Hr.
  - destruct (Py.isspace c) eqn:Hc.
    + cbn [Py.lower]. rewrite split_from_space
        by (by rewrite isspace_lower_char).
      rewrite <- IH. cbn [Py.lower]. by destruct cur.
    + cbn [Py.lower Py.split_from]. rewrite isspace_lower_char, Hc.
      by rewrite <- IH.
  - cbn [Py.lower Py.split_from]. destruct (Py.isspace (Py.lower_char c)).
    + rewrite <- IH. by destruct cur.
    + by rewrite <- IH.
Qed.

Lemma split_lower_lstrip s :
  Py.split_from [] (Py.lower (Py.lstrip s)) = Py.split_from [] (Py.lower s).
Proof.
  induction s as [|c s IH]; [done|].
  cbn [Py.lstrip]. destruct (Py.isspace c) eqn:Hc; [|done].
  cbn [Py.lower]. by rewrite split_from_space
    by (by rewrite isspace_lower_char).
Qed.

Lemma split_lower_strip s :
  Py.split (Py.lower (Py.strip s)) = Py.split (Py.lower s).
Proof.
  unfold Py.split, Py.strip.
  by rewrite split_from_lower_rstrip, split_lower_lstrip.
Qed.

(** The tokens are the words of the lower-cased substitution. *)
Lemma tokenize_unfold text :
  tokenize text =
    filter (λ t, Py.truthy t = true)
      (Py.split (Py.lower (token_re_sub false text))).
Proof. unfold tokenize, normalize_text. by rewrite split_lower_strip. Qed.

(** Whether a run of separators is being read does not matter to [split]
    when no word is being read. *)
Lemma split_sub_in_run s :
  Py.split_from [] (Py.lower (token_re_sub true s))
  = Py.split_from [] (Py.lower (token_re_sub false s)).
Proof.
  destruct s as [|c s]; [done|]. cbn [token_re_sub].
  destruct (_TOKEN_RE c); [|done].
  cbn [Py.lower]. by rewrite split_from_space.
Qed.

Lemma split_sub_lstrip s :
  Py.split_from [] (Py.lower (token_re_sub false (Py.lstrip s)))
  = Py.split_from [] (Py.lower (token_re_sub false s)).
Proof.
  induction s as [|c s IH]; [done|].
  cbn [Py.lstrip]. destruct (Py.isspace c) eqn:Hc; [|done].
  cbn [token_re_sub]. rewrite (isspace_matches c Hc).
  cbn [Py.lower]. rewrite split_from_space by done.
  by rewrite split_sub_in_run.
Qed.

(** A character that is kept is not a space, in either case. *)
Lemma kept_not_space (c : ascii) :
  _TOKEN_RE c = false → Py.isspace (Py.lower_char c) = false.
Proof.
  intros Hc. rewrite isspace_lower_char.
  destruct (Py.isspace c) eqn:Hs; [|done].
  apply isspace_matches in Hs. congruence.
Qed.

(** One step of [split] over the substitution of one character. *)
Lemma split_sub_step b cur (c : ascii) s :
  Py.split_from cur (Py.lower (token_re_sub b (String c s))) =
    if _TOKEN_RE c then
      if b then Py.split_from cur (Py.lower (token_re_sub true s))
      else
        match cur with
        | [] => Py.split_from [] (Py.lower (token_re_sub true s))
        | _ => String.string_of_list_ascii (rev cur)
               :: Py.split_from [] (Py.lower (token_re_sub true s))
        end
    else
      Py.split_from (Py.lower_char c :: cur)
        (Py.lower (token_re_sub false s)).
Proof.
  cbn [token_re_sub]. destruct (_TOKEN_RE c) eqn:Hc.
  - destruct b; [done|]. cbn [Py.lower]. by rewrite split_from_space.
  - cbn [Py.lower Py.split_from]. by rewrite (kept_not_space c Hc).
Qed.

Lemma split_sub_rstrip b cur s :
  Py.split_from cur (Py.lower (token_re_sub b (Py.rstrip s)))
  = Py.split_from cur (Py.lower (token_re_sub b s)).
Proof.
  revert b cur. induction s as [|c s IH]; intros b cur; [done|].
  cbn [Py.rstrip]. destruct (Py.rstrip s) as [|c0 r] eqn:Hr.
  - destruct (Py.isspace c) eqn:Hc.
    + rewrite (split_sub_step b cur c s), (isspace_matches c Hc).
      destruct b; [by rewrite <- IH|].
      rewrite <- IH. by destruct cur.
    + rewrite (split_sub_step b cur c s), (split_sub_step b cur c "").
      destruct (_TOKEN_RE c), b, cur; by rewrite <- ?IH.
  - rewrite (split_sub_step b cur c s), (split_sub_step b cur c (String c0 r)).
    destruct (_TOKEN_RE c), b, cur; by rewrite <- ?IH.
Qed.

(** [handle_transcript] tokenizes the trimmed text (lines 101 and 105):
    these are the tokens of the text itself. *)
Lemma tokenize_strip text : tokenize (Py.strip text) = tokenize text.
Proof.
  rewrite !tokenize_unfold. unfold Py.split, Py.strip.
  by rewrite split_sub_rstrip, split_sub_lstrip.
Qed.

Section Decisions.

Context {W : Type}.
Implicit Types (cbs : Category → list (Callback W)) (st : Store W).

Lemma handle_transcript_empty cbs text confidence words metadata st :
  Py.strip text = "" →
  handle_transcript cbs text confidence words metadata st = (st, Returned tt).
Proof. intros E. unfold handle_transcript. by rewrite E. Qed.

Lemma handle_transcript_quiet cbs text confidence words metadata st :
  Py.strip text ≠ "" →
  agent_speaking (self st) = false →
  handle_transcript cbs text confidence words metadata st =
    dispatch cbs speech_registered (Py.strip text)
      (dict_display [("reason", VStr "agent_quiet");
                     ("avg_conf", VFloat (avg_confidence confidence words))]
         (default ∅ metadata)) st.
Proof.
  intros Hne Hq. unfold handle_transcript, filler_policy, dispatch.
  rewrite (truthy_strip_nonempty _ Hne).
  unfold mbind, M_bind, get_self. by rewrite Hq.
Qed.

Lemma handle_transcript_low_confidence cbs text confidence words metadata st :
  Py.strip text ≠ "" →
  agent_speaking (self st) = true →
  Qltb (avg_confidence confidence words)
       (ignore_if_confidence_below (self st)) = true →
  handle_transcript cbs text confidence words metadata st =
    dispatch cbs ignored_filler (Py.strip text)
      (dict_display [("reason", VStr "low_confidence");
                     ("avg_conf", VFloat (avg_confidence confidence words))]
         (default ∅ metadata)) st.
Proof.
  intros Hne Hs Hlow. unfold handle_transcript, filler_policy, dispatch.
  rewrite (truthy_strip_nonempty _ Hne).
  unfold mbind, M_bind, get_self. by rewrite Hs, Hlow.
Qed.

(** Past the confidence gate the tokens alone decide. *)
Lemma handle_transcript_tokens cbs text confidence words metadata st :
  Py.strip text ≠ "" →
  agent_speaking (self st) = true →
  Qltb (avg_confidence confidence words)
       (ignore_if_confidence_below (self st)) = false →
  handle_transcript cbs text confidence words metadata st =
    let r := token_reaction (self st) (tokenize (Py.strip text))
               (avg_confidence confidence words) (default ∅ metadata) in
    dispatch cbs r.1 (Py.strip text) r.2 st.
Proof.
  intros Hne Hs Hlow.
  unfold handle_transcript, filler_policy, dispatch, token_reaction.
  rewrite (truthy_strip_nonempty _ Hne).
  unfold mbind, M_bind, get_self. rewrite Hs, Hlow. cbn zeta.
  destruct (existsb _ _); [done|].
  by destruct (filter _ _).
Qed.

(** [handle_transcript] dispatches what [reaction] selects. *)
Lemma handle_transcript_reaction cbs text confidence words metadata st :
  handle_transcript cbs text confidence words metadata st =
    match reaction (self st) text confidence words metadata with
    | None => (st, Returned tt)
    | Some (k, d) => dispatch cbs k (Py.strip text) d st
    end.
Proof.
  unfold reaction.
  destruct (decide (Py.strip text = "")) as [E|Hne].
  { rewrite handle_transcript_empty by done. by rewrite E. }
  rewrite (truthy_strip_nonempty _ Hne).
  destruct (agent_speaking (self st)) eqn:Hs.
  - destruct (Qltb _ _) eqn:Hlow.
    + by apply handle_transcript_low_confidence.
    + rewrite handle_transcript_tokens by done. cbn zeta.
      by destruct (token_reaction _ _ _ _).
  - by apply handle_transcript_quiet.
Qed.

(** ** Force-stop words (claim C1) *)


(** ** Filler-only and mixed utterances (claim C4) *)


(** ** The confidence gate (claim C5) *)

(** With the exact mean, [handle_transcript_with] is [handle_transcript]. *)
Lemma handle_transcript_with_exact cbs text confidence words metadata st :
  handle_transcript_with exact_mean cbs text confidence words metadata st
  = handle_transcript cbs text confidence words metadata st.
Proof. reflexivity. Qed.

(** Past line 112 the call is the policy of lines 117-154 on the number
    that was computed. *)
Lemma handle_transcript_with_policy mean cbs text confidence words metadata
    st :
  Py.strip text ≠ "" →
  handle_transcript_with mean cbs text confidence words metadata st =
    filler_policy cbs (Py.strip text) (tokenize (Py.strip text))
      (avg_confidence_with mean confidence words) (default ∅ metadata)
      (agent_speaking (self st)) st.
Proof.
  intros Hne. unfold handle_transcript_with.
  by rewrite (truthy_strip_nonempty _ Hne).
Qed.

Lemma filler_policy_low_confidence cbs text tokens avg_conf metadata st :
  Qltb avg_conf (ignore_if_confidence_below (self st)) = true →
  filler_policy cbs text tokens avg_conf metadata true st =
    dispatch cbs ignored_filler text
      (dict_display [("reason", VStr "low_confidence");
                     ("avg_conf", VFloat avg_conf)] metadata) st.
Proof.
  intros Hlow. unfold filler_policy, dispatch, mbind, M_bind, get_self.
  by rewrite Hlow.
Qed.

Lemma filler_policy_tokens cbs text tokens avg_conf metadata st :
  Qltb avg_conf (ignore_if_confidence_below (self st)) = false →
  filler_policy cbs text tokens avg_conf metadata true st =
    let r := token_reaction (self st) tokens avg_conf metadata in
    dispatch cbs r.1 text r.2 st.
Proof.
  intros Hlow.
  unfold filler_policy, dispatch, token_reaction, mbind, M_bind, get_self.
  rewrite Hlow. cbn zeta.
  destruct (existsb _ _); [done|]. by destruct (filter _ _).
Qed.

(** C5. While the agent is speaking, for a text that is not empty once
    trimmed, and for the average confidence as lines 108-112 computed it,
    whatever the rounding of the sum and of the division ([mean]): an
    average strictly below [ignore_if_confidence_below] sends the event to
    the ignored-filler callbacks with the reason [low_confidence], whatever
    the tokens; an average equal to the threshold passes the gate, and the
    event is handled by its tokens (force-stop word, filler only or
    mixed). *)
Theorem C5_confidence_gate_is_strict mean cbs text confidence words metadata
    st :
  agent_speaking (self st) = true →
  Py.strip text ≠ "" →
  let avg_conf := avg_confidence_with mean confidence words in
  ((avg_conf < ignore_if_confidence_below (self st))%Q →
     handle_transcript_with mean cbs text confidence words metadata st =
       dispatch cbs ignored_filler (Py.strip text)
         (dict_display [("reason", VStr "low_confidence");
                        ("avg_conf", VFloat avg_conf)]
            (default ∅ metadata)) st)
  ∧ ((avg_conf == ignore_if_confidence_below (self st))%Q →
     let r := token_reaction (self st) (tokenize text) avg_conf
                (default ∅ metadata) in
     handle_transcript_with mean cbs text confidence words metadata st =
       dispatch cbs r.1 (Py.strip text) r.2 st
     ∧ (default ∅ metadata !! "reason" = None →
        r.2 !! "reason" ≠ Some (VStr "low_confidence"))).
Proof.
  intros Hs Hne avg_conf. rewrite handle_transcript_with_policy, Hs by done.
  fold avg_conf. split.
  - intros Hlt. apply filler_policy_low_confidence. by apply Qltb_lt.
  - intros Heq r. subst r. rewrite <- (tokenize_strip text). split.
    + apply filler_policy_tokens. by apply Qltb_eq.
    + intros Hnone. unfold token_reaction, dict_display.
      destruct (existsb _ _); [|destruct (filter _ _)]; cbn [snd];
        rewrite lookup_union_r by done; by vm_compute.
Qed.

End Decisions.



(** ** Multi-word force-stop phrases (claim C2) *)

Lemma split_from_no_space cur s t :
  Forall (λ c, Py.isspace c = false) cur →
  t ∈ Py.split_from cur s →
  Forall (λ c, Py.isspace c = false) (String.list_ascii_of_string t).
Proof.
  revert cur. induction s as [|c s IH]; intros cur Hcur Hin; cbn in Hin.
  - destruct cur as [|c0 cur]; [by apply not_elem_of_nil in Hin|].
    apply list_elem_of_singleton in Hin as ->.
    rewrite String.list_ascii_of_string_of_list_ascii.
    by apply Forall_rev.
  - destruct (Py.isspace c) eqn:Hc.
    + destruct cur as [|c0 cur]; [by apply (IH [])|].
      apply elem_of_cons in Hin as [->|Hin]; [|by apply (IH [])].
      rewrite String.list_ascii_of_string_of_list_ascii.
      by apply Forall_rev.
    + apply (IH (c :: cur)); [by constructor|done].
Qed.

(** No token holds a space: a phrase of several words is never a token. *)
Lemma tokens_have_no_space text t :
  t ∈ tokenize text →
  Forall (λ c, Py.isspace c = false) (String.list_ascii_of_string t).
Proof.
  unfold tokenize, Py.split. intros [_ Hin]%list_elem_of_filter.
  by eapply split_from_no_space.
Qed.

(** C2, at the failing input: with the default words (["shut up"] is a
    force-stop phrase), the agent speaking and the text ["shut up"] heard at
    confidence 1, the tokens are ["shut"] and ["up"], none is a force-stop
    word, and the valid-interruption callback is called with the reason
    [mixed_tokens] instead of [force_stop_word]. *)
Theorem C2_phrase_is_not_matched :
  ∃ h, __init__ None None 0.5 0.4 = Returned h ∧
    let st := started (recording h) true [] in
    "shut up" ∈ force_stop_words (self st)
    ∧ tokenize "shut up" = ["shut"; "up"]
    ∧ env (handle_transcript (_callbacks (recording h)) "shut up"
             (Some 1%Q) None None st).1 =
        [(valid_interruption, "shut up",
          dict_display [("reason", VStr "mixed_tokens");
                        ("non_ignored", VList ["shut"; "up"]);
                        ("avg_conf", VFloat 1)] ∅)].
Proof.
  eexists. split; [reflexivity|]. cbn zeta. split_and!.
  - refine (bool_decide_unpack _ _). vm_compute. exact I.
  - reflexivity.
  - reflexivity.
Qed.


(** C5, witness, in binary64. The floor is the double 0.4. The words at 0.1
    and 0.7 average to 0.39999999999999997, one unit in the last place below
    the floor: the text ["stop"] is ignored. The words at 0.4 and 0.4
    average to the floor itself: the text ["stop"] interrupts. *)
Lemma C5_confidence_gate_is_strict_witness :
  ∃ h, __init__ None None 0.5 (Float64.round 0.4) = Returned h ∧
    let st := started (recording h) true [] in
    let cbs := _callbacks (recording h) in
    let below :=
      Some [WDict (Some (Float64.round 0.1));
            WDict (Some (Float64.round 0.7))] in
    let equal :=
      Some [WDict (Some (Float64.round 0.4));
            WDict (Some (Float64.round 0.4))] in
    avg_confidence_with Float64.mean None below
      = (7205759403792793 # 18014398509481984)%Q
    ∧ avg_confidence_with Float64.mean None equal = Float64.round 0.4
    ∧ handle_transcript_with Float64.mean cbs "stop" None below None st =
        dispatch cbs ignored_filler "stop"
          (dict_display
             [("reason", VStr "low_confidence");
              ("avg_conf",
               VFloat (avg_confidence_with Float64.mean None below))] ∅) st
    ∧ handle_transcript_with Float64.mean cbs "stop" None equal None st =
        dispatch cbs valid_interruption "stop"
          (dict_display
             [("reason", VStr "force_stop_word");
              ("avg_conf",
               VFloat (avg_confidence_with Float64.mean None equal))] ∅) st.
Proof.
  eexists. split; [reflexivity|]. cbn zeta.
  split; [by vm_compute|]. split; [by vm_compute|]. split.
  - lazymatch goal with
    | |- handle_transcript_with ?mean ?cbs ?t ?c ?w ?m ?st = _ =>
        edestruct (C5_confidence_gate_is_strict mean cbs t c w m st)
          as [Hlow _]; [| |apply Hlow]
    end.
    + reflexivity.
    + vm_compute. discriminate.
    + by vm_compute.
  - lazymatch goal with
    | |- handle_transcript_with ?mean ?cbs ?t ?c ?w ?m ?st = _ =>
        edestruct (C5_confidence_gate_is_strict mean cbs t c w m st)
          as [_ Heq]; [| |apply Heq]
    end.
    + reflexivity.
    + vm_compute. discriminate.
    + by vm_compute.
Defined.

(** ** A callback that raises (claim C3) *)

Section Faults.

Context {W : Type}.
Implicit Types (cbs : Category → list (Callback W)) (st : Store W).

Lemma for_each_app {A} (l1 l2 : list A) (body : A → M W unit) st :
  for_each (l1 ++ l2) body st =
    match for_each l1 body st with
    | (st1, Returned _) => for_each l2 body st1
    | (st1, Raised e) => (st1, Raised e)
    end.
Proof.
  revert st. induction l1 as [|x l1 IH]; intros st; [done|].
  cbn. unfold mbind, M_bind.
  destruct (body x st) as [st1 [[]|e]]; [apply IH|done].
Qed.

(** The loop stops at the first callback that raises. *)
Lemma for_each_raises {A} (pre post : list A) (x : A) (body : A → M W unit)
    st st1 st2 e :
  for_each pre body st = (st1, Returned tt) →
  body x st1 = (st2, Raised e) →
  for_each (pre ++ x :: post) body st = (st2, Raised e).
Proof.
  intros Hpre Hx. rewrite for_each_app, Hpre. cbn.
  unfold mbind, M_bind. by rewrite Hx.
Qed.

(** C3, as amended. When [handle_transcript] dispatches to a category and
    one of its callbacks raises, after the callbacks registered before it
    returned, the exception leaves [handle_transcript]: the callbacks
    registered after it are not called, and the store, [agent_speaking]
    included, is as the callbacks that ran left it. *)
Theorem C3_callback_exception_propagates cbs text confidence words metadata
    st k d pre cb post st1 st2 e :
  reaction (self st) text confidence words metadata = Some (k, d) →
  cbs k = pre ++ cb :: post →
  for_each pre (λ c, c (Py.strip text) d) st = (st1, Returned tt) →
  cb (Py.strip text) d st1 = (st2, Raised e) →
  handle_transcript cbs text confidence words metadata st = (st2, Raised e).
Proof.
  intros Hr Hk Hpre Hcb.
  rewrite handle_transcript_reaction, Hr. unfold dispatch. rewrite Hk.
  by eapply for_each_raises.
Qed.

(** A loop over callbacks that keep the handler's attributes keeps them. *)
Lemma for_each_keeps_self {A} (l : list A) (body : A → M W unit) st :
  (∀ x s, x ∈ l → self (body x s).1 = self s) →
  self (for_each l body st).1 = self st.
Proof.
  revert st. induction l as [|x l IH]; intros st Hkeep; [done|].
  cbn. unfold mbind, M_bind.
  pose proof (Hkeep x st ltac:(left)) as Hx.
  destruct (body x st) as [st1 [[]|e]]; cbn in *; [|done].
  rewrite IH; [done|]. intros y s Hy. apply Hkeep. by right.
Qed.

(** X7. [handle_transcript] itself never assigns an attribute of the
    handler: when the registered callbacks leave the handler's attributes
    (word sets, thresholds, flag) as they are, so does the call. *)
Lemma handle_transcript_keeps_self cbs text confidence words metadata st :
  (∀ k cb t d s, cb ∈ cbs k → self (cb t d s).1 = self s) →
  self (handle_transcript cbs text confidence words metadata st).1 = self st.
Proof.
  intros Hkeep. rewrite handle_transcript_reaction.
  destruct (reaction _ _ _ _ _) as [[k d]|]; [|done].
  apply for_each_keeps_self. intros cb s Hin. by eapply Hkeep.
Qed.

End Faults.

(** C3, witness: a recorder, a callback that raises, a recorder. The first
    recorder runs, the second does not. *)
Lemma C3_callback_exception_propagates_witness :
  ∃ h, __init__ None None 0.5 0.4 = Returned h ∧
    let h' :=
      on_valid_interruption (recorder valid_interruption)
        (on_valid_interruption (failing "boom")
          (on_valid_interruption (recorder valid_interruption) h)) in
    let st := started h' true [] in
    let d := dict_display [("reason", VStr "force_stop_word");
                           ("avg_conf", VFloat 1)] ∅ in
    handle_transcript (_callbacks h') "stop" (Some 1%Q) None None st =
      ({| self := self st; env := [(valid_interruption, "stop", d)] |},
       Raised (Exception "boom")).
Proof.
  eexists. split; [reflexivity|]. cbn zeta.
  eapply (C3_callback_exception_propagates _ "stop" (Some 1%Q) None None _
            valid_interruption _
            [recorder valid_interruption] (failing "boom")
            [recorder valid_interruption]).
  - reflexivity.
  - reflexivity.
  - reflexivity.
  - reflexivity.
Defined.

(** C3 as stated fails: the callback registered after a raising one is not
    called, and the exception leaves [handle_transcript]. *)
Lemma C3_later_callback_not_called :
  ∃ h, __init__ None None 0.5 0.4 = Returned h ∧
    let h' :=
      on_valid_interruption (recorder valid_interruption)
        (on_valid_interruption (failing "boom") h) in
    let st := started h' true [] in
    _callbacks h' valid_interruption
      = [failing "boom"; recorder valid_interruption]
    ∧ handle_transcript (_callbacks h') "stop" (Some 1%Q) None None st =
        (st, Raised (Exception "boom"))
    ∧ env st = [].
Proof. eexists. split; [reflexivity|]. cbn zeta. by split_and!. Qed.

(** ** The average confidence (claim C6) *)



(** A list of dicts that all carry a confidence yields these confidences. *)
Lemma word_confidences_all_dicts (values : list Q) :
  word_confidences ((λ c, WDict (Some c)) <$> values) = values.
Proof.
  induction values as [|v values IH]; [done|].
  unfold word_confidences in *. cbn. by f_equal.
Qed.

(** The dictionary a reaction carries holds the average confidence. *)
Lemma reaction_avg_conf h text confidence words metadata k d :
  reaction h text confidence words metadata = Some (k, d) →
  default ∅ metadata !! "avg_conf" = None →
  d !! "avg_conf" = Some (VFloat (avg_confidence confidence words)).
Proof.
  unfold reaction, token_reaction, dict_display. intros Hr Hnone.
  repeat match type of Hr with
         | context [if ?b then _ else _] => destruct b
         | context [match ?l with [] => _ | _ :: _ => _ end] => destruct l
         end;
    inversion Hr; subst; rewrite lookup_union_r by done; by vm_compute.
Qed.



(** ** Construction (claims C7 and C10) *)

(** C7, as amended. Construction never rejects a threshold: whatever the
    two numbers are, inside [0,1] or not, a handler is built and it stores
    them as given, with the agent not speaking. *)
Theorem C7_thresholds_stored_unchecked {W} ignored_words force_stop_words
    (min_confidence ignore_below : Q) :
  ∃ h : FillerInterruptHandler W,
    __init__ ignored_words force_stop_words min_confidence ignore_below
      = Returned h
    ∧ min_confidence_to_consider (fields h) = min_confidence
    ∧ ignore_if_confidence_below (fields h) = ignore_below
    ∧ agent_speaking (fields h) = false.
Proof. by eexists. Qed.

(** C7 as stated fails: the thresholds 1.5 and -1 lie outside [0,1] and the
    handler is built with them. *)
Lemma C7_out_of_range_accepted :
  (1 < 1.5)%Q ∧ (-1 < 0)%Q
  ∧ (∀ e, @__init__ unit None None 1.5 (-1) ≠ Raised e)
  ∧ ∃ h, @__init__ unit None None 1.5 (-1) = Returned h
         ∧ min_confidence_to_consider (fields h) = 1.5%Q
         ∧ ignore_if_confidence_below (fields h) = (-1)%Q.
Proof. split_and!; [done|done|done|by eexists]. Qed.

Lemma lower_set_default_ignored :
  lower_set (elements DEFAULT_IGNORED_WORDS) = DEFAULT_IGNORED_WORDS.
Proof. by vm_compute. Qed.

Lemma lower_set_default_force_stop :
  lower_set (elements DEFAULT_FORCE_STOP_WORDS) = DEFAULT_FORCE_STOP_WORDS.
Proof. by vm_compute. Qed.

Lemma lower_set_cons_nonempty (w : string) (l : list string) :
  lower_set (w :: l) ≠ ∅.
Proof. unfold lower_set. cbn. set_solver. Qed.

Lemma default_ignored_nonempty : DEFAULT_IGNORED_WORDS ≠ ∅.
Proof. unfold DEFAULT_IGNORED_WORDS. set_solver. Qed.

Lemma default_force_stop_nonempty : DEFAULT_FORCE_STOP_WORDS ≠ ∅.
Proof. unfold DEFAULT_FORCE_STOP_WORDS. set_solver. Qed.

(** An absent or an empty sized argument installs the default words. *)
Lemma lower_set_or_default (arg : option Iterable) (dflt : gset string) :
  arg = None ∨ arg = Some (Sized []) →
  lower_set_or arg dflt = lower_set (elements dflt).
Proof. by intros [->| ->]. Qed.

(** An argument that is not an iterator never installs the empty set, as
    long as the default is not empty. *)
Lemma lower_set_or_nonempty (arg : option Iterable) (dflt : gset string) :
  lower_set (elements dflt) ≠ ∅ →
  (∀ l, arg ≠ Some (Iterator l)) →
  lower_set_or arg dflt ≠ ∅.
Proof.
  intros Hd Hit. destruct arg as [[[|w l]|l]|]; cbn; try done.
  - apply lower_set_cons_nonempty.
  - by destruct (Hit l).
Qed.

(** C10, as amended. An absent argument and an empty sized collection
    (list, tuple, set) for [ignored_words] or [force_stop_words] install the
    builtin default words, and no sized collection installs an empty
    vocabulary. *)
Theorem C10_empty_collection_installs_defaults {W} ignored force_stop
    (min_confidence ignore_below : Q) :
  ∃ h : FillerInterruptHandler W,
    __init__ ignored force_stop min_confidence ignore_below = Returned h
    ∧ (ignored = None ∨ ignored = Some (Sized []) →
       ignored_words (fields h) = DEFAULT_IGNORED_WORDS)
    ∧ (force_stop = None ∨ force_stop = Some (Sized []) →
       force_stop_words (fields h) = DEFAULT_FORCE_STOP_WORDS)
    ∧ ((∀ l, ignored ≠ Some (Iterator l)) → ignored_words (fields h) ≠ ∅)
    ∧ ((∀ l, force_stop ≠ Some (Iterator l)) →
       force_stop_words (fields h) ≠ ∅).
Proof.
  eexists. split; [reflexivity|]. cbn. split_and!.
  - intros H. rewrite lower_set_or_default by done.
    apply lower_set_default_ignored.
  - intros H. rewrite lower_set_or_default by done.
    apply lower_set_default_force_stop.
  - apply lower_set_or_nonempty. rewrite lower_set_default_ignored.
    apply default_ignored_nonempty.
  - apply lower_set_or_nonempty. rewrite lower_set_default_force_stop.
    apply default_force_stop_nonempty.
Qed.

(** C10, witness: empty lists for both arguments. *)
Lemma C10_empty_collection_installs_defaults_witness :
  ∃ h : FillerInterruptHandler unit,
    __init__ (Some (Sized [])) (Some (Sized [])) 0.5 0.4 = Returned h
    ∧ ignored_words (fields h) = DEFAULT_IGNORED_WORDS
    ∧ force_stop_words (fields h) = DEFAULT_FORCE_STOP_WORDS
    ∧ ignored_words (fields h) ≠ ∅
    ∧ force_stop_words (fields h) ≠ ∅.
Proof.
  destruct (C10_empty_collection_installs_defaults (W:=unit)
              (Some (Sized [])) (Some (Sized [])) 0.5 0.4)
    as (h & Hh & Hi & Hf & Hin & Hfn).
  exists h. split_and!.
  - exact Hh.
  - apply Hi. by right.
  - apply Hf. by right.
  - apply Hin. discriminate.
  - apply Hfn. discriminate.
Defined.

(** C10 as stated fails: an iterator is true in a boolean context even when
    it has nothing to yield, so an empty iterator installs the empty set. *)
Lemma C10_empty_iterator_installs_nothing :
  ∃ h : FillerInterruptHandler unit,
    __init__ (Some (Iterator [])) (Some (Iterator [])) 0.5 0.4 = Returned h
    ∧ ignored_words (fields h) = ∅
    ∧ force_stop_words (fields h) = ∅.
Proof. by eexists. Qed.

(** ** The session's interruption callback (claim C8) *)

(** Even when it is awaited, the body of [_handle_interruption] leaves the
    handler as it is: [stop_speaking] clears the agent's own
    [_is_speaking] and nothing else. *)
Lemma handle_interruption_keeps_handler identity text meta st :
  self (Session._handle_interruption identity text meta st).1 = self st.
Proof.
  unfold Session._handle_interruption.
  by destruct (Session._agents (env st) !! identity).
Qed.

(** The wired callback only builds the coroutine: the store is untouched. *)
Lemma interruption_callback_does_nothing identity text meta st :
  Session.interruption_callback identity text meta st = (st, Returned tt).
Proof. done. Qed.

(** C8, at the failing input: the handler of participant ["alice"] as
    [_start_session] wires it, the agent speaking, the text ["stop"] heard
    at confidence 1. The decision is a valid interruption
    ([force_stop_word]); after [handle_transcript] the store is unchanged:
    the handler's [agent_speaking] is still true (and the agent's
    [_is_speaking] too). *)
Theorem C8_interruption_leaves_agent_speaking :
  ∃ h, Session.session_handler "alice" = Returned h ∧
    let agents :=
      {| Session._agents :=
           {[ "alice" := {| Session.participant_identity := "alice";
                            Session._is_speaking := true |} ]} |} in
    let st := started h true agents in
    let run := handle_transcript (_callbacks h) "stop" (Some 1%Q) None None st in
    agent_speaking (self st) = true
    ∧ reaction (self st) "stop" (Some 1%Q) None None =
        Some (valid_interruption,
              dict_display [("reason", VStr "force_stop_word");
                            ("avg_conf", VFloat 1)] ∅)
    ∧ run = (st, Returned tt)
    ∧ agent_speaking (self run.1) = true.
Proof. eexists. split; [reflexivity|]. cbn zeta. by split_and!. Qed.

(** ** Reconfiguration during a transcript (claim C9) *)

(** The two reconfigurations leave [agent_speaking] as it is. *)
Lemma update_ignored_words_keeps_flag {W} new_list (s : Store W) :
  agent_speaking (self (update_ignored_words new_list s).1)
  = agent_speaking (self s).
Proof. done. Qed.

Lemma update_force_stop_words_keeps_flag {W} new_list (s : Store W) :
  agent_speaking (self (update_force_stop_words new_list s).1)
  = agent_speaking (self s).
Proof. done. Qed.

(** A transcript task alone on the loop is a call of [handle_transcript]. *)
Lemma handle_transcript_task_alone {W} (cbs : Category → list (Callback W))
    text confidence words metadata (st : Store W) :
  run_schedule [0; 0; 0]
    (st, [handle_transcript_task cbs text confidence words metadata]) =
  let (st', r) := handle_transcript cbs text confidence words metadata st in
  (st', [Finished r]).
Proof.
  unfold handle_transcript. cbn -[Py.strip tokenize].
  destruct (negb (Py.truthy (Py.strip text))); [done|].
  cbn -[Py.strip tokenize]. unfold to_the_end, mbind, M_bind, get_self.
  by destruct (filler_policy _ _ _ _ _ _ _).
Qed.

Section Atomicity.

Context {W : Type}.
Context (cbs : Category → list (Callback W)) (text : string)
  (confidence : option Q) (words : option (list Word))
  (metadata : option (gmap string Value)).
Context (update : M W unit).
Context (st : Store W).

Hypothesis update_keeps_flag :
  ∀ s, agent_speaking (self (update s).1) = agent_speaking (self s).

Local Abbreviation handle :=
  (handle_transcript cbs text confidence words metadata).
Local Abbreviation reachable_cfg :=
  (reachable cbs text confidence words metadata update st).
Local Abbreviation pending :=
  (transcript_pending cbs text confidence words metadata st).

Lemma reachable_initial :
  reachable_cfg
    (st, [handle_transcript_task cbs text confidence words metadata;
          locked_task update]).
Proof. apply both_pending; by left. Qed.

(** Past the lock, with the flag of the current store, the task does what
    [handle_transcript] does in that store. *)
Lemma after_lock_is_handle (s : Store W) :
  Py.strip text ≠ "" →
  filler_policy cbs (Py.strip text) (tokenize (Py.strip text))
    (avg_confidence confidence words) (default ∅ metadata)
    (agent_speaking (self s)) s
  = handle s.
Proof.
  intros Hne. unfold handle_transcript.
  by rewrite (truthy_strip_nonempty _ Hne).
Qed.

(** Resuming the transcript task while it is pending, in a store whose flag
    is the one of [st]. *)
Lemma resume_transcript a (s : Store W) (u : Coro W) :
  agent_speaking (self s) = agent_speaking (self st) →
  pending a →
  (∃ a', pending a' ∧ resume_task 0 (s, [a; u]) = (s, [a'; u]))
  ∨ (∃ s' r1, handle s = (s', r1)
              ∧ resume_task 0 (s, [a; u]) = (s', [Finished r1; u])).
Proof.
  intros Hflag [->|[Hne [->| ->]]]; cbn.
  - destruct (Py.strip text) as [|c t] eqn:E; cbn.
    + right. exists s, (Returned tt). split; [|done].
      by apply handle_transcript_empty.
    + left. eexists. split; [|done]. right. split; [by rewrite E|by left].
  - left. eexists. split; [|done]. right. split; [done|]. right.
    by rewrite Hflag.
  - right. unfold to_the_end. rewrite <- Hflag, (after_lock_is_handle s Hne).
    destruct (handle s) as [s' r1]. by exists s', r1.
Qed.

(** Resuming the update task before its body has run. *)
Lemma resume_update u (s : Store W) (a : Coro W) :
  update_pending update u →
  (∃ u', update_pending update u'
         ∧ resume_task 1 (s, [a; u]) = (s, [a; u']))
  ∨ (∃ s' r2 u', update s = (s', r2) ∧ update_applied u' r2
                 ∧ resume_task 1 (s, [a; u]) = (s', [a; u'])).
Proof.
  intros [->| ->]; cbn.
  - left. eexists. split; [by right|]. done.
  - right. destruct (update s) as [s' r2].
    exists s', r2, (leaving_lock r2). split_and!; [done|by left|done].
Qed.

(** Resuming the update task after its body has run changes nothing in the
    store. *)
Lemma resume_applied u r2 (s : Store W) (a : Coro W) :
  update_applied u r2 →
  ∃ u', update_applied u' r2 ∧ resume_task 1 (s, [a; u]) = (s, [a; u']).
Proof.
  intros [->| ->]; cbn; eexists; (split; [|done]); by right.
Qed.

Lemma reachable_step i cfg :
  reachable_cfg cfg → reachable_cfg (resume_task i cfg).
Proof.
  intros H. destruct i as [|[|i]].
  - (* the transcript task is picked *)
    destruct H as [a u Ha Hu|a u s r2 Ha Hu Hupd|u s r1 Hu Hh|u s r1 r2 Hu Hs].
    + destruct (resume_transcript a st u eq_refl Ha)
        as [(a' & Ha' & ->)|(s' & r1 & Hh & ->)].
      * by apply both_pending.
      * by apply transcript_done.
    + assert (agent_speaking (self s) = agent_speaking (self st)) as Hflag
        by (by rewrite <- (update_keeps_flag st), Hupd).
      destruct (resume_transcript a s u Hflag Ha)
        as [(a' & Ha' & ->)|(s' & r1 & Hh & ->)].
      * by eapply update_done.
      * eapply both_done; [done|]. right. by exists s.
    + by apply transcript_done.
    + by eapply both_done.
  - (* the update task is picked *)
    destruct H as [a u Ha Hu|a u s r2 Ha Hu Hupd|u s r1 Hu Hh|u s r1 r2 Hu Hs].
    + destruct (resume_update u st a Hu)
        as [(u' & Hu' & ->)|(s' & r2 & u' & Hupd & Hu' & ->)].
      * by apply both_pending.
      * by eapply update_done.
    + destruct (resume_applied u r2 s a Hu) as (u' & Hu' & ->).
      by eapply update_done.
    + destruct (resume_update u s (Finished r1) Hu)
        as [(u' & Hu' & ->)|(s' & r2 & u' & Hupd & Hu' & ->)].
      * by apply transcript_done.
      * eapply both_done; [done|]. left. by exists s.
    + destruct (resume_applied u r2 s (Finished r1) Hu) as (u' & Hu' & ->).
      by eapply both_done.
  - (* there is no such task *)
    by assert (resume_task (S (S i)) cfg = cfg) as -> by (by destruct H).
Qed.

Lemma reachable_run schedule cfg :
  reachable_cfg cfg → reachable_cfg (run_schedule schedule cfg).
Proof.
  revert cfg. induction schedule as [|i schedule IH]; intros cfg H; [done|].
  cbn. by apply IH, reachable_step.
Qed.

(** Whatever the loop does, two finished tasks amount to one call after the
    other. *)
Lemma schedule_is_serial schedule st' r1 r2 :
  run_schedule schedule
    (st, [handle_transcript_task cbs text confidence words metadata;
          locked_task update])
    = (st', [Finished r1; Finished r2]) →
  transcript_then_update cbs text confidence words metadata update st
    st' r1 r2
  ∨ update_then_transcript cbs text confidence words metadata update st
      st' r1 r2.
Proof.
  intros Hrun. pose proof (reachable_run schedule _ reachable_initial) as H.
  rewrite Hrun in H.
  inversion H as [a u Ha Hu|a u s r Ha Hu|u s r Hu|u s r r' Hu Hs]; subst.
  - by destruct Ha as [|[_ []]].
  - by destruct Ha as [|[_ []]].
  - by destruct Hu.
  - destruct Hu as [|[= ->]]; done.
Qed.

End Atomicity.

(** Both orders happen. *)
Lemma transcript_first_schedule {W} (cbs : Category → list (Callback W))
    text confidence words metadata (update : M W unit) (st : Store W) :
  ∃ st' r1 r2,
    run_schedule [0; 0; 0; 1; 1; 1]
      (st, [handle_transcript_task cbs text confidence words metadata;
            locked_task update])
      = (st', [Finished r1; Finished r2])
    ∧ transcript_then_update cbs text confidence words metadata update st
        st' r1 r2.
Proof.
  unfold transcript_then_update, handle_transcript.
  cbn -[Py.strip tokenize].
  destruct (negb (Py.truthy (Py.strip text))); cbn -[Py.strip tokenize].
  - destruct (update st) as [s2 r2] eqn:Hu.
    exists s2, (Returned tt), r2. split; [done|]. by exists st.
  - unfold to_the_end, mbind, M_bind, get_self.
    destruct (filler_policy _ _ _ _ _ _ _) as [s1 r1] eqn:Hh.
    cbn -[Py.strip tokenize].
    destruct (update s1) as [s2 r2] eqn:Hu.
    exists s2, r1, r2. split; [done|]. by exists s1.
Qed.

(** C9. One [handle_transcript] task and one [update_ignored_words] or
    [update_force_stop_words] task on the event loop, resumed in any order
    and switched at any await: when both have finished, the transcript was
    handled either in the store as it was before the update, with both old
    word sets, or in the store the update produced, with both new word
    sets. *)
Theorem C9_word_sets_never_mixed {W} (cbs : Category → list (Callback W))
    text confidence words metadata new_list (update : M W unit)
    (st : Store W) schedule st' r1 r2 :
  update = update_ignored_words new_list
  ∨ update = update_force_stop_words new_list →
  run_schedule schedule
    (st, [handle_transcript_task cbs text confidence words metadata;
          locked_task update])
    = (st', [Finished r1; Finished r2]) →
  (∃ stm,
     handle_transcript cbs text confidence words metadata st = (stm, r1)
     ∧ update stm = (st', r2))
  ∨ (∃ stm,
       update st = (stm, r2)
       ∧ handle_transcript cbs text confidence words metadata stm
         = (st', r1)).
Proof.
  intros Hupd Hrun. apply schedule_is_serial in Hrun; [done|].
  destruct Hupd as [->| ->]; intros s.
  - apply update_ignored_words_keeps_flag.
  - apply update_force_stop_words_keeps_flag.
Qed.

(** C9, witness: the force-stop words are replaced by ["halt"] after the
    transcript task has read the flag and before it resumes; the text
    ["stop"] is then handled with the new words. *)
Lemma C9_word_sets_never_mixed_witness :
  ∃ h, __init__ None None 0.5 0.4 = Returned h ∧
    let st := started (recording h) true [] in
    let cbs := _callbacks (recording h) in
    let update := update_force_stop_words (Sized ["halt"]) in
    let final :=
      run_schedule [0; 0; 1; 1; 0; 1]
        (st, [handle_transcript_task cbs "stop" (Some 1%Q) None None;
              locked_task update]) in
    final.2 = [Finished (Returned tt); Finished (Returned tt)]
    ∧ ((∃ stm,
          handle_transcript cbs "stop" (Some 1%Q) None None st
            = (stm, Returned tt)
          ∧ update stm = (final.1, Returned tt))
       ∨ (∃ stm,
            update st = (stm, Returned tt)
            ∧ handle_transcript cbs "stop" (Some 1%Q) None None stm
              = (final.1, Returned tt))).
Proof.
  eexists. split; [reflexivity|]. cbn zeta. split; [reflexivity|].
  eapply (C9_word_sets_never_mixed _ _ _ _ _ (Sized ["halt"]) _ _
            [0; 0; 1; 1; 0; 1]).
  - right. reflexivity.
  - reflexivity.
Defined.

(** * Further properties of the code *)

(** ** The tokenizer (lines 22-29) *)

Lemma lower_char_idem (c : ascii) :
  Py.lower_char (Py.lower_char c) = Py.lower_char c.
Proof.
  destruct c as [b0 b1 b2 b3 b4 b5 b6 b7].
  by destruct b0, b1, b2, b3, b4, b5, b6, b7.
Qed.

Lemma token_re_lower_char (c : ascii) :
  _TOKEN_RE (Py.lower_char c) = _TOKEN_RE c.
Proof.
  destruct c as [b0 b1 b2 b3 b4 b5 b6 b7].
  by destruct b0, b1, b2, b3, b4, b5, b6, b7.
Qed.

Lemma lower_idem s : Py.lower (Py.lower s) = Py.lower s.
Proof.
  induction s as [|c s IH]; [done|]. cbn. by rewrite lower_char_idem, IH.
Qed.

Lemma kept_is_token_char (c : ascii) :
  _TOKEN_RE c = false → token_char (Py.lower_char c).
Proof.
  intros Hc. split_and!.
  - by apply kept_not_space.
  - by rewrite token_re_lower_char.
  - apply lower_char_idem.
Qed.

(** What [split] reads after the substitution: spaces and token
    characters. *)
Lemma sub_chars b s :
  Forall (λ c, Py.isspace c = true ∨ token_char c)
    (String.list_ascii_of_string (Py.lower (token_re_sub b s))).
Proof.
  revert b. induction s as [|c s IH]; intros b; cbn; [constructor|].
  destruct (_TOKEN_RE c) eqn:Hc.
  - destruct b; [apply IH|]. cbn. constructor; [by left|apply IH].
  - cbn. constructor; [|apply IH]. right. by apply kept_is_token_char.
Qed.

Lemma string_of_list_nonempty (c : ascii) l :
  String.string_of_list_ascii (l ++ [c]) ≠ "".
Proof. by destruct l. Qed.

Lemma split_from_words (P : ascii → Prop) cur s t :
  Forall P cur →
  Forall (λ c, Py.isspace c = true ∨ P c) (String.list_ascii_of_string s) →
  t ∈ Py.split_from cur s →
  t ≠ "" ∧ Forall P (String.list_ascii_of_string t).
Proof.
  revert cur. induction s as [|c s IH]; intros cur Hcur Hs Hin; cbn in Hin.
  - destruct cur as [|c0 cur]; [by apply not_elem_of_nil in Hin|].
    apply list_elem_of_singleton in Hin as ->. split.
    + cbn [rev]. apply string_of_list_nonempty.
    + rewrite String.list_ascii_of_string_of_list_ascii. by apply Forall_rev.
  - cbn in Hs. apply Forall_cons in Hs as [Hc Hs].
    destruct (Py.isspace c) eqn:Hsp.
    + destruct cur as [|c0 cur]; [by apply (IH [])|].
      apply elem_of_cons in Hin as [->|Hin]; [|by apply (IH [])]. split.
      * cbn [rev]. apply string_of_list_nonempty.
      * rewrite String.list_ascii_of_string_of_list_ascii.
        by apply Forall_rev.
    + destruct Hc as [Hc|Hc]; [congruence|].
      apply (IH (c :: cur)); [by constructor|done|done].
Qed.

Lemma lower_fixed s :
  Forall (λ c, Py.lower_char c = c) (String.list_ascii_of_string s) →
  Py.lower s = s.
Proof.
  induction s as [|c s IH]; [done|]. cbn.
  intros [Hc Hs]%Forall_cons. by rewrite Hc, IH.
Qed.

(** X1. Every token is a non-empty, lower-case string of word characters
    and apostrophes: it holds no space and no separator. *)
Theorem tokens_are_lowercase_words text t :
  t ∈ tokenize text →
  t ≠ ""
  ∧ Py.lower t = t
  ∧ Forall (λ c, Py.isspace c = false ∧ _TOKEN_RE c = false)
      (String.list_ascii_of_string t).
Proof.
  rewrite tokenize_unfold. intros [_ Hin]%list_elem_of_filter.
  destruct (split_from_words token_char [] _ t (Forall_nil_2 _)
              (sub_chars false text) Hin) as [Hne Hall].
  split_and!; [done| |].
  - apply lower_fixed. eapply Forall_impl; [done|]. by intros c (_ & _ & ?).
  - eapply Forall_impl; [done|]. by intros c (? & ? & _).
Qed.

Lemma tokens_are_lowercase_words_witness :
  "don't" ≠ ""
  ∧ Py.lower "don't" = "don't"
  ∧ Forall (λ c, Py.isspace c = false ∧ _TOKEN_RE c = false)
      (String.list_ascii_of_string "don't").
Proof.
  apply (tokens_are_lowercase_words "Wait -- DON'T go!").
  apply list_elem_of_In. vm_compute. tauto.
Defined.

(** The substitution and the lower-casing commute. *)
Lemma sub_lower b s :
  token_re_sub b (Py.lower s) = Py.lower (token_re_sub b s).
Proof.
  revert b. induction s as [|c s IH]; intros b; [done|]. cbn.
  rewrite token_re_lower_char. destruct (_TOKEN_RE c).
  - destruct b; [apply IH|]. cbn. by rewrite IH.
  - cbn. by rewrite IH.
Qed.

(** Substituting twice is substituting once. *)
Lemma sub_sub s :
  (∀ b, token_re_sub false (token_re_sub b s) = token_re_sub b s)
  ∧ token_re_sub true (token_re_sub true s) = token_re_sub true s.
Proof.
  induction s as [|c s [IH1 IH2]]; [done|]. split.
  - intros b. cbn. destruct (_TOKEN_RE c) eqn:Hc.
    + destruct b; [apply IH1|]. cbn. by rewrite IH2.
    + cbn. by rewrite Hc, IH1.
  - cbn. destruct (_TOKEN_RE c) eqn:Hc; [done|]. cbn. by rewrite Hc, IH1.
Qed.

(** X2. The tokens of a text do not change when the text is trimmed, when
    it is lower-cased, or when it is normalized first. *)
Theorem tokenize_invariant text :
  tokenize (Py.strip text) = tokenize text
  ∧ tokenize (Py.lower text) = tokenize text
  ∧ tokenize (normalize_text text) = tokenize text.
Proof.
  split_and!.
  - apply tokenize_strip.
  - rewrite !tokenize_unfold. by rewrite sub_lower, lower_idem.
  - unfold normalize_text. rewrite !tokenize_unfold.
    rewrite sub_lower, lower_idem. unfold Py.split, Py.strip.
    rewrite split_sub_rstrip, split_sub_lstrip.
    by rewrite (proj1 (sub_sub text) false).
Qed.

Lemma split_sub_nil b cur s :
  Py.split_from cur (Py.lower (token_re_sub b s)) = [] →
  cur = []
  ∧ Forall (λ c, _TOKEN_RE c = true) (String.list_ascii_of_string s).
Proof.
  revert b cur. induction s as [|c s IH]; intros b cur.
  - cbn. destruct cur; [done|discriminate].
  - rewrite split_sub_step. cbn [String.list_ascii_of_string].
    destruct (_TOKEN_RE c) eqn:Hc.
    + destruct b.
      * intros [-> Hs]%IH. by split; [|constructor].
      * destruct cur; [|discriminate].
        intros [_ Hs]%IH. by split; [|constructor].
    + intros [Hcur _]%IH. discriminate.
Qed.

Lemma split_sub_separators b s :
  Forall (λ c, _TOKEN_RE c = true) (String.list_ascii_of_string s) →
  Py.split_from [] (Py.lower (token_re_sub b s)) = [].
Proof.
  revert b. induction s as [|c s IH]; intros b Hs; [done|].
  cbn in Hs. apply Forall_cons in Hs as [Hc Hs].
  rewrite split_sub_step, Hc. destruct b; by apply IH.
Qed.

Lemma filter_truthy_id (l : list string) :
  (∀ t, t ∈ l → t ≠ "") → filter (λ t, Py.truthy t = true) l = l.
Proof.
  induction l as [|t l IH]; intros Hne; [done|].
  rewrite filter_cons. destruct (decide (Py.truthy t = true)) as [|Hf].
  - f_equal. apply IH. intros t' Hin. apply Hne. by right.
  - destruct t; [|done]. by destruct (Hne "" ltac:(left)).
Qed.

(** [split] yields no empty string: the filter of line 29 keeps all. *)
Lemma tokenize_split text :
  tokenize text = Py.split (Py.lower (token_re_sub false text)).
Proof.
  rewrite tokenize_unfold. apply filter_truthy_id. intros t Hin.
  by destruct (split_from_words (λ _, True) [] _ t (Forall_nil_2 _)
                 (Forall_impl _ _ _ (sub_chars false text)
                    (λ c H, match H with
                            | or_introl Hs => or_introl Hs
                            | or_intror _ => or_intror I
                            end)) Hin).
Qed.

(** X3. A text has no token exactly when it holds no word character and
    no apostrophe: the empty text, blanks, punctuation. *)
Theorem tokenize_nil_iff text :
  tokenize text = []
  ↔ Forall (λ c, _TOKEN_RE c = true) (String.list_ascii_of_string text).
Proof.
  rewrite tokenize_split. unfold Py.split. split.
  - by intros [_ Hs]%split_sub_nil.
  - apply split_sub_separators.
Qed.

(** ** Empty and blank transcripts (lines 100-103) *)

Lemma lstrip_blank s :
  Forall (λ c, Py.isspace c = true) (String.list_ascii_of_string s) →
  Py.lstrip s = "".
Proof.
  induction s as [|c s IH]; [done|]. cbn.
  intros [Hc Hs]%Forall_cons. rewrite Hc. by apply IH.
Qed.

(** X4. A transcript made of white space only, the empty one included,
    calls no callback and leaves the store as it is, whatever the
    confidence and whether the agent speaks or not. *)
Theorem blank_transcript_is_skipped {W} (cbs : Category → list (Callback W))
    text confidence words metadata (st : Store W) :
  Forall (λ c, Py.isspace c = true) (String.list_ascii_of_string text) →
  handle_transcript cbs text confidence words metadata st = (st, Returned tt).
Proof.
  intros Hblank. apply handle_transcript_empty.
  unfold Py.strip. by rewrite lstrip_blank.
Qed.

Lemma blank_transcript_is_skipped_witness :
  ∃ h, __init__ None None 0.5 0.4 = Returned h ∧
    let st := started (recording h) true [] in
    handle_transcript (_callbacks (recording h))
      (String " " (String "009" (String "010" " "))) (Some 1%Q) None None st
    = (st, Returned tt).
Proof.
  eexists. split; [reflexivity|]. cbn zeta.
  apply blank_transcript_is_skipped. by repeat constructor.
Defined.

(** ** What a transcript triggers (lines 96-154) *)

(** X5. Once the synthesis has ended ([_on_tts_end]), a transcript that is
    not blank goes to the speech-registered callbacks with the reason
    [agent_quiet], whatever it says and however low its confidence. *)
Theorem quiet_agent_registers_speech {W} (cbs : Category → list (Callback W))
    text confidence words metadata (st : Store W) :
  Py.strip text ≠ "" →
  (_ ← _on_tts_end; handle_transcript cbs text confidence words metadata) st
  = dispatch cbs speech_registered (Py.strip text)
      (dict_display [("reason", VStr "agent_quiet");
                     ("avg_conf", VFloat (avg_confidence confidence words))]
         (default ∅ metadata)) (_on_tts_end st).1.
Proof. intros Hne. by apply handle_transcript_quiet. Qed.

Lemma quiet_agent_registers_speech_witness :
  ∃ h, __init__ None None 0.5 0.4 = Returned h ∧
    let st := started (recording h) true [] in
    env ((_ ← _on_tts_end;
          handle_transcript (_callbacks (recording h)) "stop"
            (Some 0.1%Q) None None) st).1
    = [(speech_registered, "stop",
        dict_display [("reason", VStr "agent_quiet");
                      ("avg_conf", VFloat 0.1)] ∅)].
Proof.
  eexists. split; [reflexivity|]. cbn zeta.
  rewrite quiet_agent_registers_speech; [reflexivity|].
  vm_compute. discriminate.
Defined.

(** X6. A transcript that is not blank triggers the callbacks of exactly
    one category, all with the same dictionary. The dictionary holds every
    entry of the caller's metadata as given; unless the metadata have these
    keys, it holds the average confidence and one of the five reasons. *)
Theorem one_reaction_with_metadata {W} (cbs : Category → list (Callback W))
    text confidence words metadata (st : Store W) :
  Py.strip text ≠ "" →
  ∃ k d,
    handle_transcript cbs text confidence words metadata st
      = dispatch cbs k (Py.strip text) d st
    ∧ (∀ key v, default ∅ metadata !! key = Some v → d !! key = Some v)
    ∧ (default ∅ metadata !! "avg_conf" = None →
       d !! "avg_conf" = Some (VFloat (avg_confidence confidence words)))
    ∧ (default ∅ metadata !! "reason" = None →
       ∃ r, d !! "reason" = Some (VStr r)
            ∧ r ∈ ["low_confidence"; "force_stop_word"; "filler_only";
                   "mixed_tokens"; "agent_quiet"]).
Proof.
  intros Hne. rewrite handle_transcript_reaction.
  destruct (reaction (self st) text confidence words metadata)
    as [[k d]|] eqn:Hr.
  2:{ unfold reaction in Hr. rewrite (truthy_strip_nonempty _ Hne) in Hr.
      destruct (agent_speaking (self st)); [destruct (Qltb _ _)|]; done. }
  exists k, d. split; [done|]. split_and!.
  - intros key v Hkey. unfold reaction, token_reaction, dict_display in Hr.
    repeat match type of Hr with
           | context [if ?b then _ else _] => destruct b
           | context [match ?l with [] => _ | _ :: _ => _ end] => destruct l
           end;
      inversion Hr; subst; by apply lookup_union_Some_l.
  - by eapply reaction_avg_conf.
  - intros Hnone. unfold reaction, token_reaction, dict_display in Hr.
    repeat match type of Hr with
           | context [if ?b then _ else _] => destruct b
           | context [match ?l with [] => _ | _ :: _ => _ end] => destruct l
           end;
      inversion Hr; subst; rewrite lookup_union_r by done;
      eexists; (split; [by vm_compute|]); set_solver.
Qed.

Lemma one_reaction_with_metadata_witness :
  ∃ h, __init__ None None 0.5 0.4 = Returned h ∧
    let st := started (recording h) true [] in
    let metadata := {[ "reason" := VStr "mine"; "turn" := VStr "7" ]} in
    ∃ k d,
      handle_transcript (_callbacks (recording h)) "uh" (Some 1%Q) None
        (Some metadata) st
        = dispatch (_callbacks (recording h)) k "uh" d st
      ∧ d !! "reason" = Some (VStr "mine")
      ∧ d !! "turn" = Some (VStr "7").
Proof.
  eexists. split; [reflexivity|]. cbn zeta.
  lazymatch goal with
  | |- ∃ k d, handle_transcript ?cbs ?t ?c ?w ?m ?st = _ ∧ _ =>
      destruct (one_reaction_with_metadata cbs t c w m st)
        as (k & d & Hrun & Hmeta & _)
  end.
  - vm_compute. discriminate.
  - exists k, d. split_and!; [exact Hrun|by apply Hmeta..].
Defined.

(** X7, witness: recorders leave the handler as it is. *)
Lemma handle_transcript_keeps_self_witness :
  ∃ h, __init__ None None 0.5 0.4 = Returned h ∧
    let st := started (recording h) true [] in
    self (handle_transcript (_callbacks (recording h)) "stop" (Some 1%Q)
            None None st).1 = self st.
Proof.
  eexists. split; [reflexivity|]. cbn zeta.
  apply handle_transcript_keeps_self.
  intros k cb t d s Hin.
  destruct k; apply list_elem_of_singleton in Hin as ->; reflexivity.
Defined.






(** ** Registration (lines 59-69) *)

(** X9. A callback registered for a category is called after the
    callbacks that were there, when these return; the other categories are
    as before. *)
Theorem register_appends {W} (h : FillerInterruptHandler W) k cb k' text d
    (st : Store W) :
  dispatch (_callbacks (register k cb h)) k' text d st =
    if decide (k' = k) then
      (_ ← dispatch (_callbacks h) k text d; cb text d) st
    else dispatch (_callbacks h) k' text d st.
Proof.
  unfold dispatch, register. cbn.
  destruct (decide (k' = k)) as [->|]; [|done].
  rewrite for_each_app. unfold mbind, M_bind.
  destruct (for_each (_callbacks h k) _ st) as [st1 [[]|e]]; [|done].
  cbn. unfold mbind, M_bind. by destruct (cb text d st1) as [st2 [[]|e]].
Qed.

(** ** Reconfiguration (lines 72-87) *)

Lemma elem_of_lower_set (items : list string) (w : string) :
  w ∈ lower_set items ↔ ∃ x, x ∈ items ∧ Py.lower x = w.
Proof.
  unfold lower_set. rewrite elem_of_list_to_set, list_elem_of_fmap.
  split; intros (x & H1 & H2); exists x; by split.
Qed.

(** X10. An update replaces a word set by the lower-cased items of the new
    list: nothing of the old set is kept, and the other set, the
    thresholds, the flag and the rest of the store are as before. *)
Theorem update_words_replace {W} new_list (st : Store W) :
  let st1 := (update_ignored_words new_list st).1 in
  let st2 := (update_force_stop_words new_list st).1 in
  (∀ w, w ∈ ignored_words (self st1)
        ↔ ∃ x, x ∈ iter_items new_list ∧ Py.lower x = w)
  ∧ force_stop_words (self st1) = force_stop_words (self st)
  ∧ (∀ w, w ∈ force_stop_words (self st2)
          ↔ ∃ x, x ∈ iter_items new_list ∧ Py.lower x = w)
  ∧ ignored_words (self st2) = ignored_words (self st)
  ∧ (∀ st', st' = st1 ∨ st' = st2 →
       min_confidence_to_consider (self st')
         = min_confidence_to_consider (self st)
       ∧ ignore_if_confidence_below (self st')
         = ignore_if_confidence_below (self st)
       ∧ agent_speaking (self st') = agent_speaking (self st)
       ∧ env st' = env st).
Proof.
  cbn. split_and!; try done.
  - apply elem_of_lower_set.
  - apply elem_of_lower_set.
  - by intros st' [->| ->].
Qed.




(** X12. Of two updates of one word set the last one stands, and updates
    of the two word sets do not depend on their order. *)
Theorem updates_compose {W} a b (st : Store W) :
  (_ ← update_ignored_words a; update_ignored_words b) st
    = update_ignored_words b st
  ∧ (_ ← update_force_stop_words a; update_force_stop_words b) st
    = update_force_stop_words b st
  ∧ (_ ← update_ignored_words a; update_force_stop_words b) st
    = (_ ← update_force_stop_words b; update_ignored_words a) st.
Proof. done. Qed.

Lemma lower_set_lowercase (items : list string) (w : string) :
  w ∈ lower_set items → Py.lower w = w.
Proof. intros (x & _ & <-)%elem_of_lower_set. apply lower_idem. Qed.

Lemma lower_set_or_lowercase arg dflt (w : string) :
  w ∈ lower_set_or arg dflt → Py.lower w = w.
Proof.
  unfold lower_set_or.
  destruct arg as [it|]; [destruct (iter_truthy it)|];
    apply lower_set_lowercase.
Qed.

(** X13. The words of a handler are in lower case from the constructor on,
    whatever the case of the configured words, and every update and every
    change of the flag keep them so: a lower-case token is never missed for
    its case. *)
Theorem words_stay_lowercase {W} :
  (∀ ignored force_stop mc ic (h : FillerInterruptHandler W),
     __init__ ignored force_stop mc ic = Returned h →
     lowercase_words (fields h))
  ∧ (∀ new_list (st : Store W),
       lowercase_words (self st) →
       lowercase_words (self (update_ignored_words new_list st).1)
       ∧ lowercase_words (self (update_force_stop_words new_list st).1))
  ∧ (∀ speaking (st : Store W),
       lowercase_words (self st) →
       lowercase_words (self (set_agent_speaking speaking st).1)).
Proof.
  split_and!.
  - intros ignored force_stop mc ic h [= <-] w [Hw|Hw]; cbn in Hw;
      by eapply lower_set_or_lowercase.
  - intros new_list st Hst. split; intros w [Hw|Hw];
      unfold update_ignored_words, update_force_stop_words, mbind, M_bind,
        get_self, put_self in Hw; cbn in Hw;
      try (by eapply lower_set_lowercase); apply Hst; auto.
  - intros speaking st Hst w Hw. by apply Hst.
Qed.

Lemma words_stay_lowercase_witness :
  ∃ h : FillerInterruptHandler unit,
    __init__ (Some (Sized ["STOP"; "Hold On"])) (Some (Iterator ["Umm"]))
      0.5 0.4 = Returned h
    ∧ lowercase_words (fields h)
    ∧ lowercase_words
        (self (update_ignored_words (Sized ["ERM"])
                 {| self := fields h; env := tt |}).1).
Proof.
  destruct (@words_stay_lowercase unit) as (Hinit & Hupd & _).
  eexists. split; [reflexivity|].
  assert (lowercase_words (fields _)) as Hh by (by eapply Hinit).
  split; [exact Hh|]. by apply (Hupd (Sized ["ERM"]) {| env := tt |}).
Defined.

(** ** The range of the average confidence (lines 107-112) *)





(** ** Utterances without a word *)



(** ** A user turn ([Transcriber.on_user_turn_completed], lines 55-102) *)

Ltac turn_simpl := cbn -[Turn._check_interruption PyStr.take String.append].

Ltac run_turn :=
  unfold Turn.on_user_turn_completed, Turn.stop_speaking,
    Turn.set_is_speaking, Turn.tell_handler, try_except, raise,
    set_agent_speaking, mbind, M_bind, mret, M_ret, get_env, put_env,
    get_self, put_self;
  turn_simpl.

Ltac run_say say :=
  lazymatch goal with
  | |- context [say ?t ?s] => destruct (say t s) as [? [[]|?]]
  end.

(** X16. [on_user_turn_completed] never returns normally. With a text in
    the message it ends by raising [StopResponse], unless the synthesis
    raised an exception that is not an [Exception] (a cancellation): that
    one goes through line 95. With [text_content] being [None] it raises
    [AttributeError] from [_check_interruption] when the agent is speaking
    and has a handler, [TypeError] from line 68 otherwise. *)
Theorem turn_never_returns_normally tts session handler say text_content
    (st : Store Session.Transcriber) :
  let out :=
    (Turn.on_user_turn_completed tts session handler say text_content st).2
  in
  (∀ a, out ≠ Returned a)
  ∧ (is_Some text_content →
     (∀ t s name, (say t s).2 ≠ Raised (BaseException name)) →
     out = Raised Turn.StopResponse)
  ∧ (is_Some text_content →
     out = Raised Turn.StopResponse
     ∨ ∃ t s name, (say t s).2 = Raised (BaseException name)
                   ∧ out = Raised (BaseException name))
  ∧ (text_content = None →
     out = Raised (if Session._is_speaking (env st) && handler
                   then AttributeError else TypeError)).
Proof.
  cbn zeta.
  assert (is_Some text_content →
          (Turn.on_user_turn_completed tts session handler say text_content
             st).2 = Raised Turn.StopResponse
          ∨ ∃ t s name, (say t s).2 = Raised (BaseException name)
              ∧ (Turn.on_user_turn_completed tts session handler say
                   text_content st).2 = Raised (BaseException name)) as Hsome.
  { intros [text ->]. run_turn.
    destruct (Session._is_speaking (env st)) eqn:Hsp; turn_simpl.
    - destruct handler; turn_simpl.
      + destruct (Turn._check_interruption true text); turn_simpl;
          [by left|].
        rewrite Hsp. destruct tts, session; by left.
      + rewrite Hsp. destruct tts, session; by left.
    - rewrite Hsp. destruct tts, session; turn_simpl; try by left.
      destruct handler; turn_simpl.
      + lazymatch goal with
        | |- context [say ?t ?s] =>
            destruct (say t s) as [s' [[]|[msg|name]]] eqn:Hsay
        end; turn_simpl; try by left.
        right. eexists _, _, name. by rewrite Hsay.
      + lazymatch goal with
        | |- context [say ?t ?s] =>
            destruct (say t s) as [s' [[]|[msg|name]]] eqn:Hsay
        end; turn_simpl; try by left.
        right. eexists _, _, name. by rewrite Hsay. }
  assert (text_content = None →
          (Turn.on_user_turn_completed tts session handler say text_content
             st).2
          = Raised (if Session._is_speaking (env st) && handler
                    then AttributeError else TypeError)) as Hnone.
  { intros ->. run_turn.
    by destruct (Session._is_speaking (env st)), handler. }
  split_and!; [|  |done|done].
  - intros a Ha. destruct text_content as [text|].
    + destruct Hsome as [H|(t & s & name & _ & H)]; [done|..];
        rewrite H in Ha; done.
    + rewrite Hnone in Ha by done.
      by destruct (Session._is_speaking (env st) && handler).
  - intros Htext Hsay.
    destruct (Hsome Htext) as [H|(t & s & name & H & _)]; [done|].
    by destruct (Hsay t s name).
Qed.

Lemma turn_never_returns_normally_witness :
  let st :=
    {| self :=
         {| ignored_words := ∅; force_stop_words := ∅;
            min_confidence_to_consider := 0.5;
            ignore_if_confidence_below := 0.35;
            agent_speaking := false |};
       env := {| Session.participant_identity := "alice";
                 Session._is_speaking := false |} |} in
  (Turn.on_user_turn_completed true true true
     (λ _, raise (Exception "synthesis failed")) (Some "hello") st).2
  = Raised Turn.StopResponse
  ∧ (Turn.on_user_turn_completed true true true
       (λ _, raise (Exception "synthesis failed")) None st).2
    = Raised TypeError.
Proof.
  cbn zeta. split.
  - lazymatch goal with
    | |- (Turn.on_user_turn_completed ?t ?s ?h ?say ?c ?st).2 = _ =>
        apply (turn_never_returns_normally t s h say c st)
    end; [by eexists|done].
  - lazymatch goal with
    | |- (Turn.on_user_turn_completed ?t ?s ?h ?say ?c ?st).2 = _ =>
        apply (turn_never_returns_normally t s h say c st)
    end.
    reflexivity.
Defined.

(** X17. A reply that ends, or fails with an [Exception], never leaves the
    agent speaking. When the agent has a synthesizer and a session and is
    not speaking, and [say] raises nothing but instances of [Exception],
    then after the turn, whether [say] returned or raised and whatever
    happened in the meantime, [_is_speaking] is false and, when there is a
    handler and the message has a text, the handler's [agent_speaking] is
    false. *)
Theorem reply_never_leaves_agent_speaking handler say text_content
    (st : Store Session.Transcriber) :
  Session._is_speaking (env st) = false →
  (∀ t s name, (say t s).2 ≠ Raised (BaseException name)) →
  let st' :=
    (Turn.on_user_turn_completed true true handler say text_content st).1
  in
  Session._is_speaking (env st') = false
  ∧ (handler = true → is_Some text_content →
     agent_speaking (self st') = false).
Proof.
  intros Hsp Hsay. destruct text_content as [text|].
  - run_turn. rewrite Hsp. turn_simpl. rewrite Hsp. turn_simpl.
    destruct handler; turn_simpl.
    + lazymatch goal with
      | |- context [say ?t ?s] =>
          specialize (Hsay t s);
          destruct (say t s) as [s' [[]|[msg|name]]]
      end; turn_simpl; try done.
      by destruct (Hsay name).
    + lazymatch goal with
      | |- context [say ?t ?s] =>
          specialize (Hsay t s);
          destruct (say t s) as [s' [[]|[msg|name]]]
      end; turn_simpl; try done.
      by destruct (Hsay name).
  - run_turn. rewrite Hsp. turn_simpl. split; [done|].
    by intros _ [? [=]].
Qed.

Lemma reply_never_leaves_agent_speaking_witness :
  let st :=
    {| self :=
         {| ignored_words := ∅; force_stop_words := ∅;
            min_confidence_to_consider := 0.5;
            ignore_if_confidence_below := 0.35;
            agent_speaking := false |};
       env := {| Session.participant_identity := "alice";
                 Session._is_speaking := false |} |} in
  let st' :=
    (Turn.on_user_turn_completed true true true
       (λ _, raise (Exception "synthesis failed")) (Some "hello") st).1 in
  Session._is_speaking (env st') = false
  ∧ agent_speaking (self st') = false.
Proof.
  cbn zeta.
  lazymatch goal with
  | |- Session._is_speaking
         (env (Turn.on_user_turn_completed _ _ _ ?say ?t ?st).1) = _ ∧ _ =>
      destruct (reply_never_leaves_agent_speaking true say t st eq_refl)
        as [H1 H2]; [done|]
  end.
  split; [exact H1|by apply H2].
Defined.

(** X18. An agent that is speaking does not reply: [say] is not called.
    When the agent has a handler and [_check_interruption] holds, only the
    agent's [_is_speaking] is cleared, the handler is not told; otherwise,
    and when the message has no text, the store is left as it is. *)
Theorem busy_agent_does_not_reply tts session handler say text_content
    (st : Store Session.Transcriber) :
  Session._is_speaking (env st) = true →
  (Turn.on_user_turn_completed tts session handler say text_content st).1
  = match text_content with
    | Some user_transcript =>
        if handler && Turn._check_interruption handler user_transcript
        then {| self := self st;
                env := {| Session.participant_identity :=
                            Session.participant_identity (env st);
                          Session._is_speaking := false |} |}
        else st
    | None => st
    end.
Proof.
  intros Hsp. destruct text_content as [user_transcript|].
  - run_turn. rewrite Hsp. turn_simpl.
    destruct handler; turn_simpl.
    + destruct (Turn._check_interruption true user_transcript); turn_simpl;
        [done|].
      rewrite Hsp. by destruct tts, session.
    + rewrite Hsp. by destruct tts, session.
  - run_turn. rewrite Hsp. by destruct handler.
Qed.

Lemma busy_agent_does_not_reply_witness :
  let st :=
    {| self :=
         {| ignored_words := ∅; force_stop_words := ∅;
            min_confidence_to_consider := 0.5;
            ignore_if_confidence_below := 0.35;
            agent_speaking := true |};
       env := {| Session.participant_identity := "alice";
                 Session._is_speaking := true |} |} in
  (Turn.on_user_turn_completed true true true
     (λ _, raise (Exception "unused")) (Some "umm uh") st).1 = st
  ∧ agent_speaking
      (self (Turn.on_user_turn_completed true true true
               (λ _, raise (Exception "unused")) (Some "please stop") st).1)
    = true.
Proof.
  cbn zeta. split.
  - by rewrite busy_agent_does_not_reply.
  - by rewrite busy_agent_does_not_reply.
Defined.

(** X27. A cancelled reply leaves the agent speaking. When the agent is not
    speaking and has a synthesizer and a session, [say] is called on the
    store where [_is_speaking] and, with a handler, [agent_speaking] have
    been set; when it raises an exception that is not an [Exception], the
    turn ends with that exception in the store as [say] left it: neither
    flag is cleared by lines 96-100. *)
Theorem cancelled_reply_leaves_agent_speaking (handler : bool)
    (say : string → M Session.Transcriber unit) user_transcript name
    (st st' : Store Session.Transcriber) :
  Session._is_speaking (env st) = false →
  say ("Got it. You said: " +:+ PyStr.take 200 user_transcript)
    {| self := if handler
               then {| ignored_words := ignored_words (self st);
                       force_stop_words := force_stop_words (self st);
                       min_confidence_to_consider :=
                         min_confidence_to_consider (self st);
                       ignore_if_confidence_below :=
                         ignore_if_confidence_below (self st);
                       agent_speaking := true |}
               else self st;
       env := {| Session.participant_identity :=
                   Session.participant_identity (env st);
                 Session._is_speaking := true |} |}
  = (st', Raised (BaseException name)) →
  Turn.on_user_turn_completed true true handler say (Some user_transcript) st
  = (st', Raised (BaseException name)).
Proof.
  intros Hsp Hsay. run_turn. rewrite Hsp. turn_simpl. rewrite Hsp.
  turn_simpl. destruct handler; turn_simpl; by rewrite Hsay.
Qed.

Lemma cancelled_reply_leaves_agent_speaking_witness :
  let st :=
    {| self :=
         {| ignored_words := ∅; force_stop_words := ∅;
            min_confidence_to_consider := 0.5;
            ignore_if_confidence_below := 0.35;
            agent_speaking := false |};
       env := {| Session.participant_identity := "alice";
                 Session._is_speaking := false |} |} in
  let out :=
    Turn.on_user_turn_completed true true true
      (λ _, raise (BaseException "CancelledError")) (Some "hello") st in
  out.2 = Raised (BaseException "CancelledError")
  ∧ Session._is_speaking (env out.1) = true
  ∧ agent_speaking (self out.1) = true.
Proof.
  cbn zeta.
  lazymatch goal with
  | |- (Turn.on_user_turn_completed _ _ _ ?say _ ?st).2 = _ ∧ _ =>
      rewrite (cancelled_reply_leaves_agent_speaking true say "hello"
                 "CancelledError" st _ eq_refl eq_refl)
  end.
  by split_and!.
Defined.

(** ** The simple interruption check ([_check_interruption], lines 104-125) *)

Lemma append_cons (c : ascii) s1 s2 :
  String c s1 +:+ s2 = String c (s1 +:+ s2).
Proof. done. Qed.

Lemma startswith_app needle post :
  PyStr.startswith (needle +:+ post) needle = true.
Proof.
  induction needle as [|c needle IH]; [by destruct post|].
  rewrite append_cons. cbn [PyStr.startswith]. by rewrite Ascii.eqb_refl.
Qed.

Lemma contains_here needle post :
  PyStr.contains needle (needle +:+ post) = true.
Proof.
  destruct (needle +:+ post) eqn:E; cbn [PyStr.contains];
    by rewrite <- E, startswith_app.
Qed.

Lemma contains_app pre needle post :
  PyStr.contains needle (pre +:+ needle +:+ post) = true.
Proof.
  induction pre as [|c pre IH]; [apply (contains_here needle post)|].
  rewrite append_cons. cbn [PyStr.contains]. rewrite IH. apply orb_true_r.
Qed.

(** X19. With a handler, [_check_interruption] holds for every transcript
    whose lower-cased text contains one of the eight stop words anywhere,
    be it inside another word or, for the phrases, across words. *)
Theorem check_interruption_substring text stop pre post :
  stop ∈ ["stop"; "wait"; "pause"; "end"; "terminate"; "shut up";
          "be quiet"; "halt"] →
  Py.lower text = pre +:+ stop +:+ post →
  Turn._check_interruption true text = true.
Proof.
  intros Hstop Hlow. unfold Turn._check_interruption. cbn [negb].
  assert (existsb (λ stop, PyStr.contains stop (Py.lower text))
            ["stop"; "wait"; "pause"; "end"; "terminate"; "shut up";
             "be quiet"; "halt"] = true) as ->; [|done].
  apply existsb_exists. exists stop. split.
  - by apply list_elem_of_In.
  - rewrite Hlow. apply contains_app.
Qed.

Lemma check_interruption_substring_witness :
  Turn._check_interruption true "The weekEND was fine" = true
  ∧ Turn._check_interruption true "oh SHUT UP" = true.
Proof.
  split.
  - apply (check_interruption_substring _ "end" "the week" " was fine");
      [set_solver|reflexivity].
  - apply (check_interruption_substring _ "shut up" "oh " "");
      [set_solver|reflexivity].
Defined.

Lemma elem_of_rev {A} (x : A) (l : list A) : x ∈ l → x ∈ rev l.
Proof. rewrite !list_elem_of_In. apply in_rev. Qed.

(** Every character that is not a space is in a word of [split]. *)
Lemma split_from_covers cur s (c : ascii) :
  c ∈ cur ∨ (c ∈ String.list_ascii_of_string s ∧ Py.isspace c = false) →
  ∃ t, t ∈ Py.split_from cur s ∧ c ∈ String.list_ascii_of_string t.
Proof.
  revert cur. induction s as [|a s IH]; intros cur Hc.
  - destruct Hc as [Hc|[Hc _]]; [|by apply not_elem_of_nil in Hc].
    destruct cur as [|c0 cur]; [by apply not_elem_of_nil in Hc|].
    eexists. split; [cbn; left|].
    rewrite String.list_ascii_of_string_of_list_ascii. by apply (elem_of_rev c (c0 :: cur)).
  - cbn [Py.split_from String.list_ascii_of_string] in *.
    destruct (Py.isspace a) eqn:Ha.
    + destruct Hc as [Hc|[Hc Hsp]].
      * destruct cur as [|c0 cur]; [by apply not_elem_of_nil in Hc|].
        eexists. split; [left|].
        rewrite String.list_ascii_of_string_of_list_ascii.
        by apply (elem_of_rev c (c0 :: cur)).
      * apply elem_of_cons in Hc as [->|Hc]; [congruence|].
        destruct (IH [] (or_intror (conj Hc Hsp))) as (t & Ht & Hct).
        exists t. split; [|done]. destruct cur; [done|by right].
    + apply IH. destruct Hc as [Hc|[Hc Hsp]].
      * left. by right.
      * apply elem_of_cons in Hc as [->|Hc]; [left; left|by right].
Qed.

(** On a text of spaces and word characters the substitution changes
    nothing for [split]. *)
Lemma split_sub_plain b cur s :
  (b = true → cur = []) →
  Forall (λ c, Py.isspace c = true ∨ _TOKEN_RE c = false)
    (String.list_ascii_of_string s) →
  Py.split_from cur (Py.lower (token_re_sub b s))
  = Py.split_from cur (Py.lower s).
Proof.
  revert b cur. induction s as [|a s IH]; intros b cur Hb Hs; [done|].
  cbn in Hs. apply Forall_cons in Hs as [Ha Hs].
  rewrite split_sub_step. cbn [Py.lower].
  destruct Ha as [Ha|Ha].
  - rewrite (isspace_matches a Ha).
    rewrite split_from_space by (by rewrite isspace_lower_char).
    destruct b.
    + rewrite (Hb eq_refl). by apply IH.
    + destruct cur; by rewrite IH.
  - rewrite Ha. cbn [Py.split_from]. rewrite (kept_not_space a Ha).
    by apply IH.
Qed.

Lemma filler_chars (t : string) :
  t ∈ ["uh"; "umm"; "hmm"; "haan"; "uhh"; "uhm"] →
  Forall (λ c, _TOKEN_RE c = false) (String.list_ascii_of_string t).
Proof.
  intros Hin. repeat (apply elem_of_cons in Hin as [->|Hin];
                      [by repeat constructor|]).
  by apply not_elem_of_nil in Hin.
Qed.

(** When the check fails, the handler's tokens are the words of the
    lower-cased text, and they are fillers. *)
Lemma check_false_tokens text :
  Turn._check_interruption true text = false →
  ∀ t, t ∈ tokenize text → t ∈ ["uh"; "umm"; "hmm"; "haan"; "uhh"; "uhm"].
Proof.
  unfold Turn._check_interruption. cbn [negb].
  destruct (existsb _ _); [done|].
  destruct (filter _ (filter _ _)) as [|t0 l] eqn:Hf; [|done]. intros _.
  assert (∀ t, t ∈ Py.split (Py.lower text) →
               t ∈ ["uh"; "umm"; "hmm"; "haan"; "uhh"; "uhm"]) as Hall.
  { intros t Hin. destruct (decide (t ∈ ["uh"; "umm"; "hmm"; "haan"; "uhh";
                                         "uhm"])) as [|Hno]; [done|].
    assert (t ∈ filter (λ t, t ∉ ["uh"; "umm"; "hmm"; "haan"; "uhh"; "uhm"])
                  (filter (λ t, Py.truthy t = true)
                     (Py.split (Py.lower text)))) as Hc.
    { apply list_elem_of_filter. split; [done|].
      apply list_elem_of_filter. split; [|done].
      destruct t; [|done]. exfalso.
      by destruct (split_from_words (λ _, True) [] (Py.lower text) ""
                     (Forall_nil_2 _)
                     (Forall_true _ _ (λ _, or_intror I)) Hin). }
    rewrite Hf in Hc. by apply not_elem_of_nil in Hc. }
  assert (Forall (λ c, Py.isspace c = true ∨ _TOKEN_RE c = false)
            (String.list_ascii_of_string (Py.lower text))) as Hplain.
  { apply Forall_forall. intros c Hc.
    destruct (Py.isspace c) eqn:Hsp; [by left|right].
    destruct (split_from_covers [] (Py.lower text) c
                (or_intror (conj Hc Hsp))) as (t & Ht & Hct).
    pose proof (filler_chars t (Hall t Ht)) as Hk.
    rewrite Forall_forall in Hk. by apply Hk. }
  intros t. rewrite tokenize_split, <- lower_idem, <- sub_lower.
  unfold Py.split. rewrite split_sub_plain, lower_idem by done. apply Hall.
Qed.

Lemma list_filter_nil_fillers (ignored : gset string) (l : list string) :
  (∀ t, t ∈ l → t ∈ ignored) → filter (λ t, t ∉ ignored) l = [].
Proof.
  induction l as [|t l IH]; intros Hall; [done|].
  rewrite filter_cons_False by (intros Hn; apply Hn, Hall; left).
  apply IH. intros t' Hin. apply Hall. by right.
Qed.

Lemma session_fillers identity h (t : string) :
  Session.session_handler identity = Returned h →
  t ∈ ["uh"; "umm"; "hmm"; "haan"; "uhh"; "uhm"] →
  t ∈ ignored_words (fields h) ∧ t ∉ force_stop_words (fields h).
Proof.
  intros [= <-] Hin.
  repeat (apply elem_of_cons in Hin as [->|Hin];
          [split; refine (bool_decide_unpack _ _); vm_compute; exact I|]).
  by apply not_elem_of_nil in Hin.
Qed.

(** X20. The two interruption paths of a session agree in one direction:
    when [_check_interruption] does not hold for a transcript, the
    session's handler, with the words [_start_session] gives it, calls no
    valid-interruption callback for that transcript, whatever the
    confidence and the flag. *)
Theorem check_false_handler_never_interrupts identity h
    (cbs : Category → list (Callback Session.MultiUserTranscriber))
    text confidence words metadata
    (st : Store Session.MultiUserTranscriber) :
  Session.session_handler identity = Returned h →
  ignored_words (self st) = ignored_words (fields h) →
  force_stop_words (self st) = force_stop_words (fields h) →
  Turn._check_interruption true text = false →
  handle_transcript cbs text confidence words metadata st = (st, Returned tt)
  ∨ ∃ k d,
      k ≠ valid_interruption
      ∧ handle_transcript cbs text confidence words metadata st
        = dispatch cbs k (Py.strip text) d st.
Proof.
  intros Hh Hi Hf Hcheck. rewrite handle_transcript_reaction.
  unfold reaction. destruct (negb (Py.truthy (Py.strip text))); [by left|].
  right. destruct (agent_speaking (self st)); [|by (eexists _, _; split; [|reflexivity])].
  destruct (Qltb _ _); [by (eexists _, _; split; [|reflexivity])|].
  pose proof (check_false_tokens text Hcheck) as Htok.
  unfold token_reaction. rewrite (tokenize_strip text), Hi, Hf.
  assert (existsb (λ t, bool_decide (t ∈ force_stop_words (fields h)))
            (tokenize text) = false) as ->.
  { apply existsb_force_stop_false. intros t Hin.
    by apply (session_fillers identity h t Hh), Htok. }
  rewrite list_filter_nil_fillers; [by (eexists _, _; split; [|reflexivity])|].
  intros t Hin. by apply (session_fillers identity h t Hh), Htok.
Qed.

Lemma check_false_handler_never_interrupts_witness :
  ∃ h, Session.session_handler "alice" = Returned h ∧
    let st := started h true {| Session._agents := ∅ |} in
    handle_transcript (_callbacks h) "Umm  uh" (Some 1%Q) None None st
      = (st, Returned tt)
    ∨ ∃ k d,
        k ≠ valid_interruption
        ∧ handle_transcript (_callbacks h) "Umm  uh" (Some 1%Q) None None st
          = dispatch (_callbacks h) k (Py.strip "Umm  uh") d st.
Proof.
  eexists. split; [reflexivity|]. cbn zeta.
  eapply (check_false_handler_never_interrupts "alice"); reflexivity.
Defined.

(** ** The participants ([MultiUserTranscriber], lines 131-165, 220-221) *)

Lemma registered_together_step st e :
  Registry.registered_together st →
  Registry.registered_together (Registry.step st e).
Proof.
  intros [Hdom Hid]. destruct e as [identity|identity|identity [sess|]]; cbn.
  - unfold Registry.on_participant_connected. by case_decide.
  - split; cbn.
    + by rewrite !dom_delete_L, Hdom.
    + intros i a [_ Ha]%lookup_delete_Some. by apply Hid.
  - unfold Registry._start_session. case_decide; [|done]. split; cbn.
    + by rewrite !dom_insert_L, Hdom.
    + intros i a [[<- <-]|[_ Ha]]%lookup_insert_Some; [done|by apply Hid].
  - unfold Registry._start_session. by case_decide.
Qed.

Lemma registered_together_run events st :
  Registry.registered_together st →
  Registry.registered_together (Registry.run events st).
Proof.
  revert st. induction events as [|e events IH]; intros st Hst; [done|].
  cbn. by apply IH, registered_together_step.
Qed.

Lemma registered_together_initial :
  Registry.registered_together Registry.initial.
Proof.
  split; [done|]. intros i a Ha. cbn in Ha. by rewrite lookup_empty in Ha.
Qed.

(** X21. Whatever the participants and the setup tasks do, from the start
    on, a session and an agent are registered under exactly the same
    identities, and each agent under its own identity. *)
Theorem sessions_and_agents_together events :
  Registry.registered_together (Registry.run events Registry.initial).
Proof. apply registered_together_run, registered_together_initial. Qed.

(** X22. A disconnection of an identity that is not registered changes
    nothing, and neither does a connection of an identity that has a
    session. *)
Theorem unknown_disconnect_known_connect identity st :
  Registry.registered_together st →
  (Registry._sessions st !! identity = None →
   Registry.on_participant_disconnected identity st = st)
  ∧ (is_Some (Registry._sessions st !! identity) →
     Registry.on_participant_connected identity st = st).
Proof.
  intros [Hdom _]. split.
  - intros Hnone.
    assert (Session._agents (Registry.agents st) !! identity = None) as Ha.
    { apply not_elem_of_dom. rewrite <- Hdom. by apply not_elem_of_dom. }
    unfold Registry.on_participant_disconnected. rewrite Hnone.
    rewrite !delete_id by done.
    destruct st as [sessions [agents] tasks closing]. done.
  - intros Hsome. unfold Registry.on_participant_connected.
    case_decide as Hin; [done|]. by destruct Hin; apply elem_of_dom.
Qed.

Lemma unknown_disconnect_known_connect_witness :
  let st :=
    Registry.run [Registry.Connected "alice";
                  Registry.SetupFinished "alice" (Some 1%nat)]
      Registry.initial in
  Registry.on_participant_disconnected "bob" st = st
  ∧ Registry.on_participant_connected "alice" st = st.
Proof.
  cbn zeta.
  lazymatch goal with
  | |- Registry.on_participant_disconnected _ ?st = _ ∧ _ =>
      pose proof (unknown_disconnect_known_connect "bob" st
                    (registered_together_run _ _
                       registered_together_initial)) as [Hbob _];
      pose proof (unknown_disconnect_known_connect "alice" st
                    (registered_together_run _ _
                       registered_together_initial)) as [_ Halice]
  end.
  split; [by apply Hbob|by apply Halice].
Defined.

Lemma discard_app_new (identity : string) (tasks : list string) :
  identity ∈ tasks ++ [identity].
Proof. apply elem_of_app. right. left. Qed.

Lemma discard_keeps_second (identity : string) (tasks : list string) :
  identity ∈ tasks →
  identity ∈ Registry.discard identity (tasks ++ [identity]).
Proof.
  induction tasks as [|t tasks IH]; [by intros ?%not_elem_of_nil|].
  intros Hin. cbn. case_decide as Ht; [apply discard_app_new|].
  right. apply IH. apply elem_of_cons in Hin as [->|]; done.
Qed.

Lemma connect_new identity st :
  Registry._sessions st !! identity = None →
  Registry.on_participant_connected identity st =
    {| Registry._sessions := Registry._sessions st;
       Registry.agents := Registry.agents st;
       Registry._tasks := Registry._tasks st ++ [identity];
       Registry.closing := Registry.closing st |}.
Proof.
  intros Hnone. unfold Registry.on_participant_connected.
  rewrite decide_False; [done|]. by apply not_elem_of_dom.
Qed.

Lemma setup_finished identity sess st :
  identity ∈ Registry._tasks st →
  Registry._start_session identity (Some sess) st =
    {| Registry._sessions := <[identity := sess]> (Registry._sessions st);
       Registry.agents :=
         {| Session._agents :=
              <[identity :=
                  {| Session.participant_identity := identity;
                     Session._is_speaking := false |}]>
                (Session._agents (Registry.agents st)) |};
       Registry._tasks := Registry.discard identity (Registry._tasks st);
       Registry.closing := Registry.closing st |}.
Proof.
  intros Hin. unfold Registry._start_session. by rewrite decide_True.
Qed.

(** X23. A second connection that arrives before the setup of the first
    has finished starts a second setup: the check of line 153 only sees
    finished setups. When both finish, the later session replaces the
    earlier one, and a disconnection then closes the later one only. *)
Theorem duplicate_connect_starts_two_setups identity s1 s2 st :
  Registry._sessions st !! identity = None →
  Registry._tasks
    (Registry.run [Registry.Connected identity; Registry.Connected identity]
       st)
  = Registry._tasks st ++ [identity; identity]
  ∧ let st' :=
      Registry.run
        [Registry.Connected identity; Registry.Connected identity;
         Registry.SetupFinished identity (Some s1);
         Registry.SetupFinished identity (Some s2)] st in
    Registry._sessions st' !! identity = Some s2
    ∧ Registry.closing st' = Registry.closing st
    ∧ Registry.closing (Registry.on_participant_disconnected identity st')
      = Registry.closing st ++ [s2].
Proof.
  intros Hnone. unfold Registry.run. cbn [fold_left Registry.step].
  rewrite (connect_new identity st Hnone).
  rewrite connect_new by done. cbn [Registry._tasks].
  split; [by rewrite <- app_assoc|]. cbn zeta.
  rewrite (setup_finished identity s1)
    by (cbn; apply elem_of_app; left; apply discard_app_new).
  rewrite (setup_finished identity s2)
    by (cbn; apply discard_keeps_second, discard_app_new).
  unfold Registry.on_participant_disconnected. cbn.
  by rewrite !lookup_insert_eq.
Qed.

Lemma duplicate_connect_starts_two_setups_witness :
  let st' :=
    Registry.run
      [Registry.Connected "alice"; Registry.Connected "alice";
       Registry.SetupFinished "alice" (Some 1%nat);
       Registry.SetupFinished "alice" (Some 2%nat)] Registry.initial in
  Registry._sessions st' !! "alice" = Some 2%nat
  ∧ Registry.closing (Registry.on_participant_disconnected "alice" st')
    = [2%nat].
Proof.
  cbn zeta.
  destruct (duplicate_connect_starts_two_setups "alice" 1%nat 2%nat
              Registry.initial eq_refl) as (_ & H1 & _ & H2).
  split; [exact H1|exact H2].
Defined.

(** X24. A disconnection does not stop a setup that is under way: when the
    participant leaves before the setup has finished, the session and the
    agent are registered all the same once it finishes, and the session is
    not handed to [_close_session]. *)
Theorem disconnect_does_not_cancel_setup identity sess st :
  Registry._sessions st !! identity = None →
  let st' :=
    Registry.run
      [Registry.Connected identity; Registry.Disconnected identity;
       Registry.SetupFinished identity (Some sess)] st in
  Registry._sessions st' !! identity = Some sess
  ∧ is_Some (Session._agents (Registry.agents st') !! identity)
  ∧ Registry.closing st' = Registry.closing st.
Proof.
  intros Hnone. unfold Registry.run. cbn [fold_left Registry.step].
  rewrite (connect_new identity st Hnone).
  unfold Registry.on_participant_disconnected.
  cbn [Registry._tasks Registry._sessions Registry.agents Registry.closing].
  rewrite Hnone. rewrite setup_finished by (cbn; apply discard_app_new).
  cbn. by rewrite !lookup_insert_eq.
Qed.

Lemma disconnect_does_not_cancel_setup_witness :
  let st' :=
    Registry.run
      [Registry.Connected "alice"; Registry.Disconnected "alice";
       Registry.SetupFinished "alice" (Some 1%nat)] Registry.initial in
  Registry._sessions st' !! "alice" = Some 1%nat
  ∧ is_Some (Session._agents (Registry.agents st') !! "alice")
  ∧ Registry.closing st' = [].
Proof.
  cbn zeta.
  exact (disconnect_does_not_cancel_setup "alice" 1%nat Registry.initial
           eq_refl).
Defined.

(** ** The interruption callback when it is awaited (lines 50-53, 243-250) *)

(** X25. Awaited, [_handle_interruption] clears the [_is_speaking] of the
    agent registered under the identity, if there is one, and nothing else:
    the other agents, the identity of the agent and the handler are as
    before, and the call returns normally. *)
Theorem handle_interruption_awaited identity text meta
    (st : Store Session.MultiUserTranscriber) :
  let run := await (Session._handle_interruption identity text meta) st in
  run.2 = Returned tt
  ∧ self run.1 = self st
  ∧ Session._agents (env run.1) !! identity =
      (λ agent,
         {| Session.participant_identity :=
              Session.participant_identity agent;
            Session._is_speaking := false |})
      <$> Session._agents (env st) !! identity
  ∧ (∀ other, other ≠ identity →
       Session._agents (env run.1) !! other
       = Session._agents (env st) !! other).
Proof.
  unfold await, Session._handle_interruption, Session.stop_speaking.
  destruct (Session._agents (env st) !! identity) as [agent|] eqn:Ha; cbn.
  - split_and!; [done|done| |].
    + by rewrite lookup_alter_eq, Ha.
    + intros other Hne. by rewrite lookup_alter_ne.
  - by rewrite Ha.
Qed.

(** ** Normalizing twice (lines 25-26) *)

Lemma sub_length b s :
  (String.length (token_re_sub b s) <= String.length s)%nat.
Proof.
  revert b. induction s as [|c s IH]; intros b; [done|]. cbn.
  destruct (_TOKEN_RE c); [destruct b|]; cbn;
    [specialize (IH true)|specialize (IH true)|specialize (IH false)]; lia.
Qed.

(** A string the substitution leaves as it is does not start a run. *)
Lemma sub_true_fixed_head (c : ascii) s :
  token_re_sub true (String c s) = String c s → _TOKEN_RE c = false.
Proof.
  cbn. destruct (_TOKEN_RE c); [|done]. intros E.
  pose proof (sub_length true s) as Hlen. rewrite E in Hlen. cbn in Hlen. lia.
Qed.

Lemma sub_cons b (c : ascii) s :
  token_re_sub b (String c s) =
    if _TOKEN_RE c then
      if b then token_re_sub true s else String " " (token_re_sub true s)
    else String c (token_re_sub false s).
Proof. done. Qed.

Lemma sub_fixed_rstrip b s :
  token_re_sub b s = s → token_re_sub b (Py.rstrip s) = Py.rstrip s.
Proof.
  revert b. induction s as [|c s IH]; intros b Hfix; [done|].
  assert (token_re_sub (_TOKEN_RE c) s = s
          ∧ (_TOKEN_RE c = true → b = false ∧ c = " "%char)) as [Hs Hc].
  { cbn in Hfix. destruct (_TOKEN_RE c) eqn:Hm.
    - destruct b.
      + pose proof (sub_length true s) as Hlen. rewrite Hfix in Hlen.
        cbn in Hlen. lia.
      + by injection Hfix as <- Hs.
    - by injection Hfix as Hs. }
  cbn [Py.rstrip]. destruct (Py.rstrip s) as [|d r] eqn:Hr.
  - destruct (Py.isspace c) eqn:Hsp; [done|].
    cbn. destruct (_TOKEN_RE c) eqn:Hm; [|done].
    destruct (Hc eq_refl) as [-> ->]. done.
  - specialize (IH _ Hs). rewrite sub_cons.
    destruct (_TOKEN_RE c) eqn:Hm.
    + destruct (Hc eq_refl) as [-> ->]. by rewrite IH.
    + by rewrite IH.
Qed.

Lemma sub_fixed_lstrip s :
  token_re_sub false s = s →
  token_re_sub false (Py.lstrip s) = Py.lstrip s.
Proof.
  destruct s as [|c s]; [done|]. intros Hfix. cbn [Py.lstrip].
  destruct (Py.isspace c) eqn:Hsp; [|done].
  cbn in Hfix. rewrite (isspace_matches c Hsp) in Hfix.
  injection Hfix as _ Hs.
  destruct s as [|d s]; [done|].
  pose proof (sub_true_fixed_head d s Hs) as Hd.
  assert (Py.isspace d = false) as Hdsp.
  { destruct (Py.isspace d) eqn:E; [|done].
    apply isspace_matches in E. congruence. }
  cbn [Py.lstrip]. rewrite Hdsp. cbn in Hs |- *. by rewrite Hd in Hs |- *.
Qed.

Lemma lstrip_lower s : Py.lstrip (Py.lower s) = Py.lower (Py.lstrip s).
Proof.
  induction s as [|c s IH]; [done|]. cbn.
  rewrite isspace_lower_char. by destruct (Py.isspace c).
Qed.

Lemma rstrip_lower s : Py.rstrip (Py.lower s) = Py.lower (Py.rstrip s).
Proof.
  induction s as [|c s IH]; [done|]. cbn [Py.lower Py.rstrip].
  rewrite IH, isspace_lower_char.
  destruct (Py.rstrip s); cbn; [by destruct (Py.isspace c)|done].
Qed.

Lemma rstrip_idem s : Py.rstrip (Py.rstrip s) = Py.rstrip s.
Proof.
  induction s as [|c s IH]; [done|]. cbn [Py.rstrip].
  destruct (Py.rstrip s) as [|d r] eqn:Hr.
  - destruct (Py.isspace c) eqn:Hsp; [done|]. cbn. by rewrite Hsp.
  - cbn [Py.rstrip] in *. by rewrite IH.
Qed.

Lemma lstrip_head s :
  match Py.lstrip s with
  | EmptyString => True
  | String c _ => Py.isspace c = false
  end.
Proof.
  induction s as [|c s IH]; [done|]. cbn.
  by destruct (Py.isspace c) eqn:Hsp.
Qed.

Lemma strip_idem s : Py.strip (Py.strip s) = Py.strip s.
Proof.
  unfold Py.strip. pose proof (lstrip_head s) as Hhead.
  destruct (Py.lstrip s) as [|c w]; [done|].
  assert (Py.lstrip (Py.rstrip (String c w)) = Py.rstrip (String c w)) as ->.
  { cbn [Py.rstrip]. destruct (Py.rstrip w); rewrite ?Hhead; cbn;
      by rewrite Hhead. }
  apply rstrip_idem.
Qed.

(** X26. Normalizing a normalized text changes nothing. *)
Theorem normalize_text_idempotent text :
  normalize_text (normalize_text text) = normalize_text text.
Proof.
  unfold normalize_text. rewrite sub_lower.
  assert (token_re_sub false (Py.strip (token_re_sub false text))
          = Py.strip (token_re_sub false text)) as ->.
  { unfold Py.strip. apply sub_fixed_rstrip, sub_fixed_lstrip.
    apply (proj1 (sub_sub text) false). }
  unfold Py.strip at 1. rewrite lstrip_lower, rstrip_lower, lower_idem.
  fold (Py.strip (Py.strip (token_re_sub false text))).
  by rewrite strip_idem.
Qed.
